(** * aws-cdk-interactive-cli: the selection engines, the stack inventory
      reconciler and the deploy/destroy dispatcher.

    Sources embedded here:
      - src/services/InteractiveCDKManager.ts
          customSearchableSelect, customMultiSelect, showDeployMenu,
          showDestroyMenu
      - CDKStackService.ts
          listCDKStacks, getStackDetails, deployStack, destroyStack

    Strings are sequences of code units below 128; [toLowerCase] and [trim]
    are the JavaScript functions restricted to that range.  Array indices are
    integers ([Z]): the engines compute [-1] as a cursor, and JavaScript
    answers [undefined] for an index outside the array. *)

From Stdlib Require Import ZArith List String Ascii Bool Lia.
From stdpp Require Import base gmap sets list strings.

Open Scope string_scope.
Open Scope Z_scope.

(* ===================================================================== *)
(** ** JavaScript primitives used by the sources *)
(* ===================================================================== *)

Module JS.

(** [c.toLowerCase()] on one code unit: A..Z go to a..z. *)
Definition lower_ascii (c : ascii) : ascii :=
  let n := nat_of_ascii c in
  if ((65 <=? n)%nat && (n <=? 90)%nat)%bool then ascii_of_nat (n + 32) else c.

Fixpoint toLowerCase (s : string) : string :=
  match s with
  | EmptyString => EmptyString
  | String c s' => String (lower_ascii c) (toLowerCase s')
  end.

(** White space and line terminators removed by [String.prototype.trim]:
    TAB, LF, VT, FF, CR and SPACE. *)
Definition is_space (c : ascii) : bool :=
  let n := nat_of_ascii c in
  (((9 <=? n)%nat && (n <=? 13)%nat) || (n =? 32)%nat)%bool.

Fixpoint trimStart (s : string) : string :=
  match s with
  | EmptyString => EmptyString
  | String c s' => if is_space c then trimStart s' else s
  end.

(** [trimEnd]: a character is dropped when it is a space and everything
    after it has been dropped. *)
Fixpoint trimEnd (s : string) : string :=
  match s with
  | EmptyString => EmptyString
  | String c s' =>
      match trimEnd s' with
      | EmptyString => if is_space c then EmptyString else String c EmptyString
      | t => String c t
      end
  end.

Definition trim (s : string) : string := trimEnd (trimStart s).

(** Truthiness of a string: the empty string is falsy. *)
Definition truthy (s : string) : bool :=
  match s with EmptyString => false | _ => true end.

(** [s.startsWith(p)] *)
Fixpoint startsWith (s p : string) {struct p} : bool :=
  match p, s with
  | EmptyString, _ => true
  | String _ _, EmptyString => false
  | String a p', String b s' => if Ascii.eqb a b then startsWith s' p' else false
  end.

(** [s.includes(q)] *)
Fixpoint includes (s q : string) : bool :=
  (startsWith s q ||
   match s with
   | EmptyString => false
   | String _ s' => includes s' q
   end)%bool.

(** [s.slice(0, -1)]: the string without its last code unit. *)
Fixpoint slice_0_m1 (s : string) : string :=
  match s with
  | EmptyString => EmptyString
  | String _ EmptyString => EmptyString
  | String c s' => String c (slice_0_m1 s')
  end.

(** [a[i]] for an integer [i]: [undefined] ([None]) outside the array. *)
Definition array_get {A} (a : list A) (i : Z) : option A :=
  if i <? 0 then None else a !! Z.to_nat i.

(** [a.length] *)
Definition alength {A} (a : list A) : Z := Z.of_nat (length a).

(** [a.indexOf(x)] with a decidable strict equality; [-1] when absent. *)
Fixpoint indexOf_from {A} (eqb : A -> A -> bool) (x : A) (a : list A) (i : Z) : Z :=
  match a with
  | [] => -1
  | y :: a' => if eqb x y then i else indexOf_from eqb x a' (i + 1)
  end.

Definition indexOf {A} (eqb : A -> A -> bool) (x : A) (a : list A) : Z :=
  indexOf_from eqb x a 0.

(** [a.splice(start, 1)], the array left behind.  A negative [start]
    counts from the end ([-1] is the last element); nothing is removed
    when the start position is at or past the end. *)
Definition splice1 {A} (a : list A) (start : Z) : list A :=
  let len := alength a in
  let from := if start <? 0 then Z.max (len + start) 0 else Z.min start len in
  take (Z.to_nat from) a ++ drop (S (Z.to_nat from)) a.

(** [key.length === 1 && key >= " " && key <= "~"] *)
Definition is_printable (key : string) : bool :=
  match key with
  | String c EmptyString =>
      let n := nat_of_ascii c in ((32 <=? n)%nat && (n <=? 126)%nat)%bool
  | _ => false
  end.

End JS.

(** Control characters and escape sequences compared against by the key
    handlers. *)
Definition chr (n : nat) : string := String (ascii_of_nat n) EmptyString.
Definition ESC : string := chr 27.
Definition CTRL_C : string := chr 3.
Definition ENTER : string := chr 13.
Definition DEL : string := chr 127.
Definition BS : string := chr 8.
Definition SPACE : string := " ".

Definition is_up (key : string) : bool :=
  (String.eqb key (ESC ++ "[A") || String.eqb key (ESC ++ "[1;2A") ||
   String.eqb key (ESC ++ "[1;9A") || String.eqb key (ESC ++ "OA"))%bool.

Definition is_down (key : string) : bool :=
  (String.eqb key (ESC ++ "[B") || String.eqb key (ESC ++ "[1;2B") ||
   String.eqb key (ESC ++ "[1;9B") || String.eqb key (ESC ++ "OB"))%bool.

Definition is_backspace (key : string) : bool :=
  (String.eqb key DEL || String.eqb key BS)%bool.

(* ===================================================================== *)
(** ** Choices and the filter *)
(* ===================================================================== *)

(** A choice object [{ name, value, ... }].  [oid] stands for the identity
    of the object: [indexOf] on an array of objects compares references. *)
Record Choice := mkChoice {
  oid : nat;
  name : string;
  value : string;
}.

Definition same_object (a b : Choice) : bool := Nat.eqb (oid a) (oid b).

(** [choices.indexOf(x)] where [x] may be [undefined]: an array of objects
    holds no [undefined], so the answer is [-1] then. *)
Definition indexOfChoice (x : option Choice) (choices : list Choice) : Z :=
  match x with
  | None => -1
  | Some c => JS.indexOf same_object c choices
  end.

(** The closure [filterChoices] of both engines (the two copies are the
    same text). *)
Definition choice_matches (query : string) (choice : Choice) : bool :=
  (JS.includes (JS.toLowerCase (name choice)) (JS.toLowerCase query) ||
   JS.includes (JS.toLowerCase (value choice)) (JS.toLowerCase query))%bool.

Definition filterChoices (choices : list Choice) (query : string) : list Choice :=
  if negb (JS.truthy (JS.trim query)) then choices
  else List.filter (choice_matches query) choices.

(* ===================================================================== *)
(** ** The key handlers of the two selection engines *)
(* ===================================================================== *)

(** Each engine is followed through one session: from the moment its
    promise body has set raw mode and attached [handleKey] to the ["data"]
    events of stdin, one call of [handleKey] per chunk read.

    How a session stands: [Threw] is a [TypeError] leaving the listener
    (reading [.value] of [undefined]); the process-wide
    [uncaughtException] handler then ends the process. *)
Inductive Outcome (R : Type) : Type :=
| Running
| Resolved (r : R)
| Exited (code : Z)
| Threw.
Arguments Running {R}.
Arguments Resolved {R} r.
Arguments Exited {R} code.
Arguments Threw {R}.

Definition is_running {R} (o : Outcome R) : bool :=
  match o with Running => true | _ => false end.

(** [customSearchableSelect] resolves to [string | string[]]. *)
Inductive SelectResult : Type :=
| One (v : string)
| Many (vs : list string).

(** One line of [displayChoices]: the cursor marker, the checkbox (absent
    in single-select mode) and the text of the choice. *)
Record Row := mkRow {
  isCurrent : bool;
  checkbox : option bool;
  text : string;
}.

(** [filteredChoices.forEach((choice, index) => ...)] with its index. *)
Fixpoint forEach_rows (f : Choice -> Z -> Row) (l : list Choice) (index : Z) : list Row :=
  match l with
  | [] => []
  | c :: l' => f c index :: forEach_rows f l' (index + 1)
  end.

Module SearchableSelect.

Record State := mkState {
  selectedItems : list string;
  currentIndex : Z;
  selectedIndices : gset Z;
  searchQuery : string;
  filteredChoices : list Choice;
  rawMode : bool;
  paused : bool;
  outcome : Outcome SelectResult;
}.

Definition set_currentIndex (s : State) (i : Z) : State :=
  mkState (selectedItems s) i (selectedIndices s) (searchQuery s)
          (filteredChoices s) (rawMode s) (paused s) (outcome s).

Definition set_selection (s : State) (items : list string) (idx : gset Z) : State :=
  mkState items (currentIndex s) idx (searchQuery s)
          (filteredChoices s) (rawMode s) (paused s) (outcome s).

Definition set_search (s : State) (q : string) (f : list Choice) (i : Z) : State :=
  mkState (selectedItems s) i (selectedIndices s) q f
          (rawMode s) (paused s) (outcome s).

Definition set_outcome (s : State) (o : Outcome SelectResult) : State :=
  mkState (selectedItems s) (currentIndex s) (selectedIndices s) (searchQuery s)
          (filteredChoices s) (rawMode s) (paused s) o.

(** [process.stdin.setRawMode(false); process.stdin.pause(); rl.close()] *)
Definition release (s : State) : State :=
  mkState (selectedItems s) (currentIndex s) (selectedIndices s) (searchQuery s)
          (filteredChoices s) false true (outcome s).

Section Engine.
Variable choices : list Choice.
Variable multiSelect : bool.

(** The state when the promise body has run: raw mode acquired, stdin
    resumed, all locals at their initial values. *)
Definition init : State :=
  mkState [] 0 ∅ "" choices true false Running.

Definition displayChoices (s : State) : list Row :=
  forEach_rows
    (fun choice index =>
       let isSelected :=
         if multiSelect
         then bool_decide (indexOfChoice (Some choice) choices ∈ selectedIndices s)
         else false in
       let isCurrent :=
         ((index =? currentIndex s) &&
          (currentIndex s <? JS.alength (filteredChoices s)))%bool in
       mkRow isCurrent (if multiSelect then Some isSelected else None) (name choice))
    (filteredChoices s) 0.

Definition handleKey (s : State) (key : string) : State :=
  if String.eqb key CTRL_C then
    set_outcome s (Exited 0)
  else if is_up key then
    set_currentIndex s (Z.max 0 (currentIndex s - 1))
  else if is_down key then
    set_currentIndex s
      (Z.min (JS.alength (filteredChoices s) - 1) (currentIndex s + 1))
  else if (String.eqb key SPACE && multiSelect)%bool then
    let actualChoice := JS.array_get (filteredChoices s) (currentIndex s) in
    let actualIndex := indexOfChoice actualChoice choices in
    if decide (actualIndex ∈ selectedIndices s) then
      let idx := selectedIndices s ∖ {[ actualIndex ]} in
      match actualChoice with
      | None => set_outcome (set_selection s (selectedItems s) idx) Threw
      | Some c =>
          set_selection s
            (JS.splice1 (selectedItems s)
               (JS.indexOf String.eqb (value c) (selectedItems s)))
            idx
      end
    else
      let idx := selectedIndices s ∪ {[ actualIndex ]} in
      match actualChoice with
      | None => set_outcome (set_selection s (selectedItems s) idx) Threw
      | Some c => set_selection s (selectedItems s ++ [value c]) idx
      end
  else if String.eqb key ENTER then
    let s1 := release s in
    if multiSelect then
      set_outcome s1 (Resolved (Many (selectedItems s)))
    else if ((0 <? JS.alength (filteredChoices s)) &&
             (currentIndex s <? JS.alength (filteredChoices s)))%bool then
      match JS.array_get (filteredChoices s) (currentIndex s) with
      | Some c => set_outcome s1 (Resolved (One (value c)))
      | None => set_outcome s1 Threw
      end
    else
      set_outcome s1 (Resolved (One ""))
  else if is_backspace key then
    let q := JS.slice_0_m1 (searchQuery s) in
    let f := filterChoices choices q in
    set_search s q f
      (Z.min (currentIndex s) (Z.max 0 (JS.alength f - 1)))
  else if JS.is_printable key then
    let q := searchQuery s ++ key in
    let f := filterChoices choices q in
    set_search s q f
      (Z.min (currentIndex s) (Z.max 0 (JS.alength f - 1)))
  else s.

(** A ["data"] event reaches the listener only while the session runs:
    after Enter stdin is paused, after [process.exit] or an uncaught
    error there is no process. *)
Definition step (s : State) (key : string) : State :=
  if is_running (outcome s) then handleKey s key else s.

Definition run (keys : list string) : State := fold_left step keys init.

End Engine.
End SearchableSelect.

Module MultiSelect.

Record State := mkState {
  selectedStacks : list string;
  currentIndex : Z;
  selectedIndices : gset Z;
  searchQuery : string;
  isSearching : bool;
  filteredChoices : list Choice;
  rawMode : bool;
  paused : bool;
  outcome : Outcome (list string);
}.

Definition set_currentIndex (s : State) (i : Z) : State :=
  mkState (selectedStacks s) i (selectedIndices s) (searchQuery s) (isSearching s)
          (filteredChoices s) (rawMode s) (paused s) (outcome s).

Definition set_selection (s : State) (items : list string) (idx : gset Z) : State :=
  mkState items (currentIndex s) idx (searchQuery s) (isSearching s)
          (filteredChoices s) (rawMode s) (paused s) (outcome s).

Definition set_query (s : State) (searching : bool) (q : string) : State :=
  mkState (selectedStacks s) (currentIndex s) (selectedIndices s) q searching
          (filteredChoices s) (rawMode s) (paused s) (outcome s).

Definition set_search (s : State) (searching : bool) (q : string)
           (f : list Choice) (i : Z) : State :=
  mkState (selectedStacks s) i (selectedIndices s) q searching f
          (rawMode s) (paused s) (outcome s).

Definition set_outcome (s : State) (o : Outcome (list string)) : State :=
  mkState (selectedStacks s) (currentIndex s) (selectedIndices s) (searchQuery s)
          (isSearching s) (filteredChoices s) (rawMode s) (paused s) o.

(** [process.stdin.setRawMode(false); process.stdin.pause(); rl.close()] *)
Definition release (s : State) : State :=
  mkState (selectedStacks s) (currentIndex s) (selectedIndices s) (searchQuery s)
          (isSearching s) (filteredChoices s) false true (outcome s).

Section Engine.
Variable choices : list Choice.

Definition init : State :=
  mkState [] 0 ∅ "" false choices true false Running.

Definition displayChoices (s : State) : list Row :=
  forEach_rows
    (fun choice index =>
       let isSelected :=
         bool_decide (indexOfChoice (Some choice) choices ∈ selectedIndices s) in
       mkRow (index =? currentIndex s) (Some isSelected) (name choice))
    (filteredChoices s) 0.

Definition handleKey (s : State) (key : string) : State :=
  if String.eqb key CTRL_C then
    set_outcome s (Exited 0)
  else if (String.eqb key "/" && negb (isSearching s))%bool then
    set_query s true ""
  else if isSearching s then
    if (String.eqb key ENTER || String.eqb key ESC)%bool then
      let f := filterChoices choices (searchQuery s) in
      set_search s false (searchQuery s) f
        (Z.min (currentIndex s) (JS.alength f - 1))
    else if is_backspace key then
      let q := JS.slice_0_m1 (searchQuery s) in
      let f := filterChoices choices q in
      set_search s true q f (Z.min (currentIndex s) (JS.alength f - 1))
    else if JS.is_printable key then
      let q := searchQuery s ++ key in
      let f := filterChoices choices q in
      set_search s true q f (Z.min (currentIndex s) (JS.alength f - 1))
    else s
  else if is_up key then
    set_currentIndex s (Z.max 0 (currentIndex s - 1))
  else if is_down key then
    set_currentIndex s
      (Z.min (JS.alength (filteredChoices s) - 1) (currentIndex s + 1))
  else if String.eqb key SPACE then
    let actualChoice := JS.array_get (filteredChoices s) (currentIndex s) in
    let actualIndex := indexOfChoice actualChoice choices in
    if decide (actualIndex ∈ selectedIndices s) then
      let idx := selectedIndices s ∖ {[ actualIndex ]} in
      match actualChoice with
      | None => set_outcome (set_selection s (selectedStacks s) idx) Threw
      | Some c =>
          set_selection s
            (JS.splice1 (selectedStacks s)
               (JS.indexOf String.eqb (value c) (selectedStacks s)))
            idx
      end
    else
      let idx := selectedIndices s ∪ {[ actualIndex ]} in
      match actualChoice with
      | None => set_outcome (set_selection s (selectedStacks s) idx) Threw
      | Some c => set_selection s (selectedStacks s ++ [value c]) idx
      end
  else if String.eqb key ENTER then
    set_outcome (release s) (Resolved (selectedStacks s))
  else s.

Definition step (s : State) (key : string) : State :=
  if is_running (outcome s) then handleKey s key else s.

Definition run (keys : list string) : State := fold_left step keys init.

End Engine.
End MultiSelect.

(* ===================================================================== *)
(** ** CDKStackService: reconciliation of declared stacks with
       CloudFormation *)
(* ===================================================================== *)

(** A call that may throw. *)
Inductive Result (E A : Type) : Type :=
| Ok (a : A)
| Throw (e : E).
Arguments Ok {E A} a.
Arguments Throw {E A} e.

(** [try { body } catch (error) { handler }] *)
Definition try_catch {E A} (body : Result E A) (handler : E -> Result E A) : Result E A :=
  match body with
  | Ok a => Ok a
  | Throw e => handler e
  end.

Definition bind {E A B} (m : Result E A) (k : A -> Result E B) : Result E B :=
  match m with
  | Ok a => k a
  | Throw e => Throw e
  end.

Notation "x <- m ;; k" := (bind m (fun x => k))
  (at level 100, m at next level, right associativity).

Module CDKStackService.

(** What [cdkExecutor.listStacks()] yields per declared stack. *)
Record StackInfo := mkStackInfo {
  displayName : string;
  fullName : string;
  cfStackName : string;
}.

Record CDKStack := mkCDKStack {
  stackName : string;
  stackId : option string;
  stackStatus : string;
  creationTime : Z;
  lastUpdatedTime : option Z;
  description : option string;
  tags : option (gmap string string);
}.

(** The part of a [DescribeStacks] response the service reads. *)
Record Tag := mkTag {
  Key : option string;
  Value : option string;
}.

Record Stack := mkStack {
  StackId : option string;
  StackStatus : string;
  CreationTime : Z;
  LastUpdatedTime : option Z;
  Description : option string;
  Tags : option (list Tag);
}.

Record DescribeStacksOutput := mkOutput {
  Stacks : option (list Stack);
}.

(** The error object of a rejected SDK call: its name and message. *)
Record Error := mkError {
  errName : string;
  errMessage : string;
}.

(** The reducer of [stack.Tags?.reduce(...)]. *)
Definition collect_tag (acc : gmap string string) (tag : Tag) : gmap string string :=
  match Key tag, Value tag with
  | Some k, Some v => if (JS.truthy k && JS.truthy v)%bool then <[ k := v ]> acc else acc
  | _, _ => acc
  end.

Section Service.
(** [this.cloudFormationClient.send(new DescribeStacksCommand(...))]:
    the answer to the [n]-th lookup of a listing, for a stack name. *)
Variable send : nat -> string -> Result Error DescribeStacksOutput.
(** The reading of [new Date()]. *)
Variable now : Z.

(** [getStackDetails]: the inner [try] holds the lookup, the outer one the
    whole body.  The verbose logging of the body has no part in the result
    (an error in it would be caught by the outer [catch] like any other). *)
Definition getStackDetails (n : nat) (stackName cfStackName : string)
  : Result Error (option CDKStack) :=
  try_catch
    (returned <-
       try_catch
         (response <- send n cfStackName ;;
          match Stacks response with
          | Some (stack :: _) =>
              Ok (Some
                    (mkCDKStack stackName (StackId stack) (StackStatus stack)
                       (CreationTime stack) (LastUpdatedTime stack)
                       (Description stack)
                       (option_map (fun Tags => fold_left collect_tag Tags ∅) (Tags stack))))
          | _ => Ok None
          end)
         (fun error => Ok None) ;;
     match returned with
     | Some details => Ok (Some details)
     | None => Ok None
     end)
    (fun error => Ok None).

(** One turn of the [for (const stack of stackInfo)] loop: what is
    pushed on [detailedStacks]. *)
Definition detail_of (n : nat) (stack : StackInfo) : CDKStack :=
  match getStackDetails n (fullName stack) (cfStackName stack) with
  | Ok (Some stackDetails) => stackDetails
  | Ok None =>
      mkCDKStack (fullName stack) None "NOT_DEPLOYED" now (Some now)
        (Some "CDK Stack (not deployed)") (Some ∅)
  | Throw error =>
      mkCDKStack (fullName stack) None "UNKNOWN" now (Some now)
        (Some "CDK Stack (details unavailable)") (Some ∅)
  end.

Fixpoint for_of (stackInfo : list StackInfo) (n : nat) (detailedStacks : list CDKStack)
  : list CDKStack :=
  match stackInfo with
  | [] => detailedStacks
  | stack :: rest => for_of rest (S n) (detailedStacks ++ [detail_of n stack])
  end.

(** [listCDKStacks], given what [cdkExecutor.listStacks()] did. *)
Definition listCDKStacks (listing : Result Error (list StackInfo)) : list CDKStack :=
  match listing with
  | Throw error => []
  | Ok stackInfo =>
      if (JS.alength stackInfo =? 0) then [] else for_of stackInfo 0%nat []
  end.

(** [detailedStacks.filter((stack) => stack.stackId !== undefined).length] *)
Definition deployedCount (detailedStacks : list CDKStack) : Z :=
  JS.alength (List.filter (fun stack => bool_decide (stackId stack ≠ None)) detailedStacks).

End Service.
End CDKStackService.

(* ===================================================================== *)
(** ** The deploy and destroy flows *)
(* ===================================================================== *)

(** [s.replace(/\s*\([^)]*\)\s*$/, "")]: the leftmost suffix made of
    optional spaces, one parenthesised group and optional spaces is cut. *)
Module StackNames.

Fixpoint all_space (s : string) : bool :=
  match s with
  | EmptyString => true
  | String c s' => (JS.is_space c && all_space s')%bool
  end.

(** After the opening parenthesis: [[^)]*\)\s*$]. *)
Fixpoint group_then_end (s : string) : bool :=
  match s with
  | EmptyString => false
  | String c s' => if Ascii.eqb c ")" then all_space s' else group_then_end s'
  end.

(** [^\s*\([^)]*\)\s*$] *)
Fixpoint paren_suffix (s : string) : bool :=
  match s with
  | EmptyString => false
  | String c s' =>
      if Ascii.eqb c "(" then group_then_end s'
      else if JS.is_space c then paren_suffix s'
      else false
  end.

Fixpoint clean (s : string) : string :=
  if paren_suffix s then EmptyString
  else match s with
       | EmptyString => EmptyString
       | String c s' => String c (clean s')
       end.

End StackNames.

Inductive Verb : Type := Deploy | Destroy.

(** What the flows do that can be observed: a message to the operator, or
    one run of the CDK command line by the executor. *)
Inductive Event : Type :=
| Said (message : string)
| Invoked (verb : Verb) (stackNames : list string) (args : list string).

Module CDKCommandExecutor.

(** [CDKCommandOptions] as the service fills it: [stackName] is the array
    of names, [parameters] and [tags] are left undefined. *)
Record CDKCommandOptions := mkOptions {
  stackName : option (list string);
  profile : option string;
  region : option string;
  verbose : bool;
  requireApproval : option bool;
}.

Definition flag (name : string) (v : option string) : list string :=
  match v with
  | Some s => if JS.truthy s then [name; s] else []
  | None => []
  end.

Definition stack_args (options : CDKCommandOptions) : list string :=
  match stackName options with
  | Some names => names
  | None => []
  end.

Definition deploy_args (options : CDKCommandOptions) : list string :=
  ["deploy"; "--require-approval=never"] ++ stack_args options ++
  flag "--profile" (profile options) ++ flag "--region" (region options) ++
  (if bool_decide (requireApproval options = Some false)
   then ["--require-approval"; "never"] else []) ++
  (if verbose options then ["--verbose"] else []).

Definition destroy_args (options : CDKCommandOptions) : list string :=
  ["destroy"; "--force"] ++ stack_args options ++
  flag "--profile" (profile options) ++ flag "--region" (region options) ++
  (if verbose options then ["--verbose"] else []).

Definition args_of (verb : Verb) : CDKCommandOptions -> list string :=
  match verb with Deploy => deploy_args | Destroy => destroy_args end.

End CDKCommandExecutor.

Module InteractiveCDKManager.
Import CDKStackService.

Record Config := mkConfig {
  cfg_profile : string;
  cfg_region : string;
  cfg_verbose : bool;
}.

Section Flows.
Variable config : Config.
(** [cdkExecutor.checkCDKInstalled()] *)
Variable cdkInstalled : bool.
(** The styled text of a choice, composed with chalk from the stack's
    display name, CloudFormation name and status. *)
Variable label : CDKStack -> string.

(** [cdkService.deployStack(names)] and [cdkService.destroyStack(names)]:
    the executor is reached only when the CDK CLI is found. *)
Definition service_call (verb : Verb) (names : list string) : list Event :=
  if negb cdkInstalled then
    [Said "AWS CDK CLI is not installed or not in PATH."]
  else
    let options :=
      CDKCommandExecutor.mkOptions (Some names)
        (if String.eqb (cfg_profile config) "default" then None
         else Some (cfg_profile config))
        (Some (cfg_region config)) (cfg_verbose config) (Some false) in
    [Invoked verb names (CDKCommandExecutor.args_of verb options)].

(** The flow once [customMultiSelect] has resolved to [selectedStacks]. *)
Definition after_select (verb : Verb) (selectedStacks : list string) : list Event :=
  if JS.alength selectedStacks =? 0 then
    [Said "No stacks selected."]
  else
    let cleanStackNames := List.map StackNames.clean selectedStacks in
    service_call verb cleanStackNames.

(** [stacks.map((stack) => ({ name, value: stack.stackName, ... }))]:
    one fresh object per stack. *)
Definition choices_of (stacks : list CDKStack) : list Choice :=
  imap (fun i stack => mkChoice i (label stack) (stackName stack)) stacks.

(** The multi-select session run on the operator's keys; the flow goes
    on only when the session resolved. *)
Definition select_then (verb : Verb) (choices : list Choice) (keys : list string)
  : list Event :=
  match MultiSelect.outcome (MultiSelect.run choices keys) with
  | Resolved selectedStacks => after_select verb selectedStacks
  | _ => []
  end.

Definition showDeployMenu (stacks : list CDKStack) (keys : list string) : list Event :=
  if JS.alength stacks =? 0 then
    [Said "No stacks available for deployment."]
  else select_then Deploy (choices_of stacks) keys.

Definition showDestroyMenu (stacks : list CDKStack) (keys : list string) : list Event :=
  let deployedStacks :=
    List.filter (fun stack => bool_decide (stackId stack ≠ None)) stacks in
  if JS.alength deployedStacks =? 0 then
    [Said "No deployed stacks found to destroy."]
  else select_then Destroy (choices_of deployedStacks) keys.

End Flows.
End InteractiveCDKManager.

(* ===================================================================== *)
(** ** More of the JavaScript text primitives *)
(* ===================================================================== *)

Module JSText.

(** [s.split(sep)] for a separator of one character: never empty, the
    empty string gives one empty piece. *)
Fixpoint split_char (sep : ascii) (s : string) : list string :=
  match s with
  | EmptyString => [EmptyString]
  | String c s' =>
      match split_char sep s' with
      | [] => [EmptyString]
      | piece :: pieces =>
          if Ascii.eqb c sep then EmptyString :: piece :: pieces
          else String c piece :: pieces
      end
  end.

(** [a.pop()] read as a value: the last element. *)
Definition pop (a : list string) : option string := last a.

(** [x || y] on strings, [x] possibly [undefined]. *)
Definition or_else (x : option string) (y : string) : string :=
  match x with
  | Some s => if JS.truthy s then s else y
  | None => y
  end.

Definition is_letter (c : ascii) : bool :=
  let n := nat_of_ascii c in
  (((65 <=? n)%nat && (n <=? 90)%nat) || ((97 <=? n)%nat && (n <=? 122)%nat))%bool.

Definition is_digit (c : ascii) : bool :=
  let n := nat_of_ascii c in ((48 <=? n)%nat && (n <=? 57)%nat)%bool.

Fixpoint forallb_string (p : ascii -> bool) (s : string) : bool :=
  match s with
  | EmptyString => true
  | String c s' => (p c && forallb_string p s')%bool
  end.

Fixpoint existsb_string (p : ascii -> bool) (s : string) : bool :=
  match s with
  | EmptyString => false
  | String c s' => (p c || existsb_string p s')%bool
  end.

(** [[^)]*\)$] read from the character after an opening parenthesis: the
    text up to the closing parenthesis that ends the string. *)
Fixpoint group_to_end (s : string) : option string :=
  match s with
  | EmptyString => None
  | String c s' =>
      if Ascii.eqb c ")" then
        match s' with EmptyString => Some EmptyString | _ => None end
      else option_map (String c) (group_to_end s')
  end.

(** [s.match(/\(([^)]+)\)$/)], the captured group: the search starts at
    the leftmost opening parenthesis from which the pattern matches. *)
Fixpoint match_parens (s : string) : option string :=
  match s with
  | EmptyString => None
  | String c s' =>
      if Ascii.eqb c "(" then
        match group_to_end s' with
        | Some (String a x) => Some (String a x)
        | _ => match_parens s'
        end
      else match_parens s'
  end.

End JSText.

(* ===================================================================== *)
(** ** CDKCommandExecutor: the listing of declared stacks and the command
       line *)
(* ===================================================================== *)

Module CDKExecutor.
Import CDKStackService.

(** What [executeCommand] resolves to. *)
Record CommandResult := mkCommandResult {
  success : bool;
  output : option string;
  error : option string;
}.

(** [listStacks] either returns the parsed stacks or ends the process. *)
Inductive Listing : Type :=
| Listed (stackInfo : list StackInfo)
| ProcessExit (code : Z).

Definition rule : string :=
  "————————————————————————————————————————————————————————————————————————————————————————————————————————————————————————————————————————————————————————————————————————————————————————————".

(** [/^[a-zA-Z0-9-_/()\s]+$/]: the class holds the letters, the digits,
    the hyphen, the underscore, the slash, the parentheses and white
    space. *)
Definition name_char (c : ascii) : bool :=
  (JSText.is_letter c || JSText.is_digit c || Ascii.eqb c "-" || Ascii.eqb c "_" ||
   Ascii.eqb c "/" || Ascii.eqb c "(" || Ascii.eqb c ")" || JS.is_space c)%bool.

Definition looks_like_name (trimmed : string) : bool :=
  (JS.truthy trimmed && JSText.forallb_string name_char trimmed)%bool.

(** The predicate of [result.output.split("\n").filter(...)]. *)
Definition keep_line (line : string) : bool :=
  let trimmed := JS.trim line in
  (JS.truthy trimmed &&
   negb (JS.startsWith trimmed "[WARNING]") &&
   negb (JS.startsWith trimmed "> nx run") &&
   negb (JS.startsWith trimmed rule) &&
   negb (JS.startsWith trimmed "NX   Successfully ran target") &&
   negb (JS.includes trimmed "deprecated") &&
   negb (JS.includes trimmed "This API will be removed") &&
   negb (JS.startsWith trimmed "CDK") &&
   negb (JS.startsWith trimmed "npm") &&
   negb (JS.startsWith trimmed "yarn") &&
   negb (JS.startsWith trimmed "pnpm") &&
   negb (JS.includes trimmed "Installing") &&
   negb (JS.includes trimmed "Building") &&
   negb (JS.includes trimmed "Synthesizing") &&
   negb (JS.includes trimmed "✨") &&
   negb (JS.includes trimmed "⚠") &&
   negb (JS.includes trimmed "ℹ") &&
   negb (JS.includes trimmed "⠋") &&
   negb (JS.includes trimmed "⠙") &&
   negb (JS.includes trimmed "⠹") &&
   negb (JS.includes trimmed "⠸") &&
   negb (JS.includes trimmed "⠼") &&
   negb (JS.includes trimmed "⠴") &&
   negb (JS.includes trimmed "⠦") &&
   negb (JS.includes trimmed "⠧") &&
   negb (JS.includes trimmed "⠇") &&
   negb (JS.includes trimmed "⠏") &&
   looks_like_name trimmed &&
   JSText.existsb_string JSText.is_letter trimmed)%bool.

(** [cleanLine.includes("/") ? cleanLine.split("/").pop() || cleanLine
    : cleanLine] *)
Definition last_segment (cleanLine : string) : string :=
  if JS.includes cleanLine "/"
  then JSText.or_else (JSText.pop (JSText.split_char "/" cleanLine)) cleanLine
  else cleanLine.

(** The function mapped over the kept lines; [null] for a blank line. *)
Definition parse_line (line : string) : option StackInfo :=
  let trimmed := JS.trim line in
  if negb (JS.truthy trimmed) then None
  else
    let cfStackName := JSText.match_parens trimmed in
    let cleanLine := StackNames.clean trimmed in
    let displayName := last_segment cleanLine in
    Some (mkStackInfo (JS.trim displayName) trimmed (JSText.or_else cfStackName cleanLine)).

Definition parse_output (output : string) : list StackInfo :=
  omap parse_line (List.filter keep_line (JSText.split_char "010" output)).

Definition listStacks (result : CommandResult) : Listing :=
  if negb (success result) then ProcessExit 1
  else
    match output result with
    | Some output => if JS.truthy output then Listed (parse_output output) else ProcessExit 1
    | None => ProcessExit 1
    end.



End CDKExecutor.

(* ===================================================================== *)
(** ** index.js: the stand-alone copy of the searchable select *)
(* ===================================================================== *)

(** [customSearchableSelect] of index.js works on the same locals as the
    method of the manager; its listener differs in the Ctrl+C and Enter
    branches, which also release the terminal and drop the listeners
    ([removeAllListeners]: no key reaches the handler afterwards, which is
    what [step] says). *)
Module IndexSelect.
Import SearchableSelect.

Section Engine.
Variable choices : list Choice.
Variable multiSelect : bool.

Definition handleKey (s : State) (key : string) : State :=
  if String.eqb key CTRL_C then
    set_outcome (release s) (Exited 0)
  else if is_up key then
    set_currentIndex s (Z.max 0 (currentIndex s - 1))
  else if is_down key then
    set_currentIndex s
      (Z.min (JS.alength (filteredChoices s) - 1) (currentIndex s + 1))
  else if (String.eqb key SPACE && multiSelect)%bool then
    let actualChoice := JS.array_get (filteredChoices s) (currentIndex s) in
    let actualIndex := indexOfChoice actualChoice choices in
    if decide (actualIndex ∈ selectedIndices s) then
      let idx := selectedIndices s ∖ {[ actualIndex ]} in
      match actualChoice with
      | None => set_outcome (set_selection s (selectedItems s) idx) Threw
      | Some c =>
          set_selection s
            (JS.splice1 (selectedItems s)
               (JS.indexOf String.eqb (value c) (selectedItems s)))
            idx
      end
    else
      let idx := selectedIndices s ∪ {[ actualIndex ]} in
      match actualChoice with
      | None => set_outcome (set_selection s (selectedItems s) idx) Threw
      | Some c => set_selection s (selectedItems s ++ [value c]) idx
      end
  else if String.eqb key ENTER then
    let s1 := release s in
    if multiSelect then
      set_outcome s1 (Resolved (Many (selectedItems s)))
    else if ((0 <? JS.alength (filteredChoices s)) &&
             (currentIndex s <? JS.alength (filteredChoices s)))%bool then
      match JS.array_get (filteredChoices s) (currentIndex s) with
      | Some c => set_outcome s1 (Resolved (One (value c)))
      | None => set_outcome s1 Threw
      end
    else
      set_outcome s1 (Resolved (One ""))
  else if is_backspace key then
    let q := JS.slice_0_m1 (searchQuery s) in
    let f := filterChoices choices q in
    set_search s q f
      (Z.min (currentIndex s) (Z.max 0 (JS.alength f - 1)))
  else if JS.is_printable key then
    let q := searchQuery s ++ key in
    let f := filterChoices choices q in
    set_search s q f
      (Z.min (currentIndex s) (Z.max 0 (JS.alength f - 1)))
  else s.

Definition step (s : State) (key : string) : State :=
  if is_running (outcome s) then handleKey s key else s.

Definition run (keys : list string) : State := fold_left step keys (init choices).

End Engine.
End IndexSelect.

(* ===================================================================== *)
(** ** The main menu of the manager *)
(* ===================================================================== *)

Module MainMenu.

Definition menuChoices : list Choice :=
  [ mkChoice 0 "🚀 Deploy stacks" "deploy";
    mkChoice 1 "🗑️  Destroy stacks" "destroy";
    mkChoice 2 "🔄 Refresh stacks" "refresh";
    mkChoice 3 "❌ Exit" "exit" ].

(** What [handleMainMenuAction] goes on to do. *)
Inductive Action : Type :=
| ShowDeployMenu
| ShowDestroyMenu
| RefreshStacks
| Stop
| UnknownAction.

Definition handleMainMenuAction (action : string) : Action :=
  if String.eqb action "deploy" then ShowDeployMenu
  else if String.eqb action "destroy" then ShowDestroyMenu
  else if String.eqb action "refresh" then RefreshStacks
  else if String.eqb action "exit" then Stop
  else UnknownAction.

(** [showMainMenu] from the select on: the action taken once the session
    has resolved (the select is single-select, so to one string). *)
Definition showMainMenu (keys : list string) : option Action :=
  match SearchableSelect.outcome (SearchableSelect.run menuChoices false keys) with
  | Resolved (One action) => Some (handleMainMenuAction action)
  | _ => None
  end.

End MainMenu.

(* ===================================================================== *)
(** ** CDKStackService: how a status is shown *)
(* ===================================================================== *)

Module StatusDisplay.

Definition one_of (status : string) (cases : list string) : bool :=
  existsb (String.eqb status) cases.

Definition getStackStatusColor (status : string) : string :=
  if one_of status ["CREATE_COMPLETE"; "UPDATE_COMPLETE"] then "green"
  else if one_of status ["CREATE_FAILED"; "UPDATE_FAILED"; "UPDATE_ROLLBACK_FAILED";
                         "DELETE_FAILED"; "ROLLBACK_FAILED"] then "red"
  else if one_of status ["CREATE_IN_PROGRESS"; "UPDATE_IN_PROGRESS";
                         "UPDATE_ROLLBACK_IN_PROGRESS"; "ROLLBACK_IN_PROGRESS";
                         "DELETE_IN_PROGRESS"] then "yellow"
  else if one_of status ["ROLLBACK_COMPLETE"; "UPDATE_ROLLBACK_COMPLETE"] then "orange"
  else "gray".

Record StatusInfo := mkStatusInfo {
  emoji : string;
  color : string;
  text : string;
}.

Definition getStackStatusWithEmoji (status : string) : StatusInfo :=
  if String.eqb status "CREATE_COMPLETE" then
    mkStatusInfo "✅" "green" "Active"
  else if String.eqb status "UPDATE_COMPLETE" then
    mkStatusInfo "✅" "green" "Updated"
  else if String.eqb status "CREATE_FAILED" then
    mkStatusInfo "❌" "red" "Create Failed"
  else if String.eqb status "UPDATE_FAILED" then
    mkStatusInfo "❌" "red" "Update Failed"
  else if String.eqb status "UPDATE_ROLLBACK_FAILED" then
    mkStatusInfo "❌" "red" "Rollback Failed"
  else if String.eqb status "DELETE_FAILED" then
    mkStatusInfo "❌" "red" "Delete Failed"
  else if String.eqb status "ROLLBACK_FAILED" then
    mkStatusInfo "❌" "red" "Rollback Failed"
  else if String.eqb status "CREATE_IN_PROGRESS" then
    mkStatusInfo "🔄" "yellow" "Creating"
  else if String.eqb status "UPDATE_IN_PROGRESS" then
    mkStatusInfo "🔄" "yellow" "Updating"
  else if String.eqb status "UPDATE_ROLLBACK_IN_PROGRESS" then
    mkStatusInfo "🔄" "yellow" "Rolling Back"
  else if String.eqb status "ROLLBACK_IN_PROGRESS" then
    mkStatusInfo "🔄" "yellow" "Rolling Back"
  else if String.eqb status "DELETE_IN_PROGRESS" then
    mkStatusInfo "🗑️" "yellow" "Deleting"
  else if String.eqb status "ROLLBACK_COMPLETE" then
    mkStatusInfo "⚠️" "orange" "Rolled Back"
  else if String.eqb status "UPDATE_ROLLBACK_COMPLETE" then
    mkStatusInfo "⚠️" "orange" "Rolled Back"
  else if String.eqb status "DELETE_COMPLETE" then
    mkStatusInfo "🗑️" "gray" "Deleted"
  else if String.eqb status "REVIEW_IN_PROGRESS" then
    mkStatusInfo "👀" "blue" "Reviewing"
  else if String.eqb status "IMPORT_IN_PROGRESS" then
    mkStatusInfo "📥" "blue" "Importing"
  else if String.eqb status "IMPORT_COMPLETE" then
    mkStatusInfo "✅" "green" "Imported"
  else if String.eqb status "IMPORT_ROLLBACK_IN_PROGRESS" then
    mkStatusInfo "🔄" "yellow" "Import Rolling Back"
  else if String.eqb status "IMPORT_ROLLBACK_FAILED" then
    mkStatusInfo "❌" "red" "Import Rollback Failed"
  else if String.eqb status "IMPORT_ROLLBACK_COMPLETE" then
    mkStatusInfo "⚠️" "orange" "Import Rolled Back"
  else mkStatusInfo "❓" "gray" status.

End StatusDisplay.

(* ===================================================================== *)
(** ** CDKCommandExecutor: the search for the CDK project *)
(* ===================================================================== *)

Module ProjectSearch.




Section Search.
(** [path.dirname] *)
Variable dirname : string -> string.
(** whether [execSync(`test -f ${path.join(dir, "cdk.json")}`)] returns
    rather than throws *)
Variable has_cdk_json : string -> bool.
(** the [app] entry of the parsed [cdk.json] of a directory; [None] when
    reading or parsing throws or there is no entry *)
Variable cdk_json_app : string -> option string.




End Search.
End ProjectSearch.

(** What a single-select session keeps true: the view holds choices of
    the list, the cursor is not past the view, and a resolved session
    hands out the value under the cursor or the empty string. *)
Definition single_inv (choices : list Choice) (s : SearchableSelect.State) : Prop :=
  (forall c, c ∈ SearchableSelect.filteredChoices s -> c ∈ choices) /\
  SearchableSelect.currentIndex s <=
    Z.max 0 (JS.alength (SearchableSelect.filteredChoices s) - 1) /\
  (forall r, SearchableSelect.outcome s = Resolved r ->
             exists v, r = One v /\
               ((SearchableSelect.filteredChoices s = [] /\ v = "") \/
                exists c, JS.array_get (SearchableSelect.filteredChoices s)
                            (SearchableSelect.currentIndex s) = Some c /\
                          v = value c /\ c ∈ choices)).


(* ===================================================================== *)
(** ** The specification's wording, invariants and scenarios *)
(* ===================================================================== *)

(** The filter as the specification words it: [contains_ci] is containment
    of the query as a substring once both sides are lower-cased, and an
    item is kept when the query is empty or its label or value contains
    the query. *)
Definition contains_ci (text Q : string) : Prop :=
  exists pre post, JS.toLowerCase text = (pre ++ JS.toLowerCase Q ++ post)%string.

Definition spec_keeps (Q : string) (i : Choice) : Prop :=
  Q = "" \/ contains_ci (name i) Q \/ contains_ci (value i) Q.

Definition code_keeps (Q : string) (i : Choice) : Prop :=
  JS.trim Q = "" \/ contains_ci (name i) Q \/ contains_ci (value i) Q.

(** The value of the choice at an original index. *)
Definition value_at (choices : list Choice) (i : Z) : option string :=
  value <$> JS.array_get choices i.

(** The result as the specification words it: the values of the selected
    indices in the order of the original list. *)
Definition in_original_order (choices : list Choice) (selected : gset Z) : list string :=
  omap (fun i => if bool_decide (i ∈ selected) then value_at choices i else None)
       (Z.of_nat <$> seq 0 (length choices)).

(** What a session of [customMultiSelect] keeps true: the view holds
    choices of the list, [selectedStacks] holds each selected value once,
    and a resolved session hands out [selectedStacks]. *)
Definition selection_inv (choices : list Choice) (s : MultiSelect.State) : Prop :=
  (forall c, c ∈ MultiSelect.filteredChoices s -> c ∈ choices) /\
  NoDup (MultiSelect.selectedStacks s) /\
  (forall v, v ∈ MultiSelect.selectedStacks s <->
             exists i, i ∈ MultiSelect.selectedIndices s /\ value_at choices i = Some v) /\
  (forall r, MultiSelect.outcome s = Resolved r -> r = MultiSelect.selectedStacks s).

(** [selectedStacks] and [selectedIndices] agree: each selected value once. *)
Definition sel_ok (choices : list Choice) (stacks : list string) (sel : gset Z) : Prop :=
  NoDup stacks /\
  forall v, v ∈ stacks <-> exists i, i ∈ sel /\ value_at choices i = Some v.



(** The checkbox [displayChoices] draws for a choice depends on the
    selection set alone. *)
Definition checked (choices : list Choice) (s : MultiSelect.State) (choice : Choice) : bool :=
  bool_decide (indexOfChoice (Some choice) choices ∈ MultiSelect.selectedIndices s).

(** The inputs of the scenarios evaluated below. *)
Module Scenarios.
Import CDKStackService.

(** The listing of the scenario: stack A is deployed, the lookup of B
    throws a permission error, C is not found. *)
Definition declared3 : list StackInfo :=
  [ mkStackInfo "A" "A (cf-A)" "cf-A";
    mkStackInfo "Child" "B/Child (cf-B)" "cf-B";
    mkStackInfo "C" "C (cf-C)" "cf-C" ].

Definition send3 (n : nat) (cfStackName : string) : Result Error DescribeStacksOutput :=
  if String.eqb cfStackName "cf-A" then
    Ok (mkOutput (Some [mkStack (Some "arn:cf-A") "CREATE_COMPLETE" 1000 None None None]))
  else if String.eqb cfStackName "cf-B" then
    Throw (mkError "AccessDenied" "User is not authorized to perform DescribeStacks")
  else
    Ok (mkOutput (Some [])).

Definition one_stack : list CDKStack :=
  [mkCDKStack "Pipeline/ServiceA (cf-a)" (Some "arn:cf-a") "CREATE_COMPLETE" 0 None None None].

End Scenarios.

(** Case analysis over the branches of a key handler. *)
Ltac handler_cases :=
  repeat match goal with
         | |- context [if ?b then _ else _] => destruct b eqn:?
         | |- context [match ?x with Some _ => _ | None => _ end] => destruct x eqn:?
         end.

(* ===================================================================== *)
(** * Properties *)
(* ===================================================================== *)

(** ** Strings *)

Section StringFacts.

Lemma startsWith_spec (s p : string) :
  JS.startsWith s p = true <-> exists post, s = (p ++ post)%string.
Proof.
  revert s. induction p as [|a p IH]; intros s; simpl.
  - split; [intros _; exists s; reflexivity | reflexivity].
  - destruct s as [|b s].
    + split; [discriminate | intros [post H]; discriminate].
    + destruct (Ascii.eqb_spec a b) as [->|Hne].
      * rewrite IH. split; intros [post H]; exists post.
        -- simpl. now rewrite H.
        -- simpl in H. now inversion H.
      * split; [discriminate | intros [post H]].
        simpl in H. inversion H. congruence.
Qed.

Lemma includes_spec (s q : string) :
  JS.includes s q = true <-> exists pre post, s = (pre ++ q ++ post)%string.
Proof.
  induction s as [|c s IH].
  - simpl. rewrite orb_false_r, startsWith_spec. split.
    + intros [post H]. exists EmptyString, post. exact H.
    + intros [pre [post H]]. destruct pre; [exists post; exact H | discriminate].
  - cbn [JS.includes]. rewrite orb_true_iff, startsWith_spec, IH. split.
    + intros [[post H] | [pre [post H]]].
      * exists EmptyString, post. exact H.
      * exists (String c pre), post. simpl. now rewrite H.
    + intros [pre [post H]]. destruct pre as [|c' pre].
      * left. exists post. exact H.
      * right. simpl in H. inversion H. exists pre, post. reflexivity.
Qed.

Lemma trimEnd_empty (s : string) :
  JS.trimEnd s = EmptyString <-> StackNames.all_space s = true.
Proof.
  induction s as [|c s IH]; simpl.
  - split; reflexivity.
  - destruct (JS.trimEnd s) eqn:E.
    + destruct (JS.is_space c); simpl.
      * split; [intros _; now apply IH | reflexivity].
      * split; discriminate.
    + split; [discriminate|]. rewrite andb_true_iff. intros [_ H].
      apply IH in H. discriminate.
Qed.

Lemma trimStart_all_space (s : string) :
  StackNames.all_space (JS.trimStart s) = StackNames.all_space s.
Proof.
  induction s as [|c s IH]; simpl; [reflexivity|].
  destruct (JS.is_space c) eqn:E; simpl; [exact IH | now rewrite E].
Qed.

(** [query.trim()] is empty exactly for a query of white space only. *)
Lemma trim_empty (s : string) :
  JS.trim s = EmptyString <-> StackNames.all_space s = true.
Proof. unfold JS.trim. now rewrite trimEnd_empty, trimStart_all_space. Qed.

End StringFacts.

(** ** The filter (C8) *)

Lemma choice_matches_spec (Q : string) (i : Choice) :
  choice_matches Q i = true <-> contains_ci (name i) Q \/ contains_ci (value i) Q.
Proof.
  unfold choice_matches, contains_ci.
  now rewrite orb_true_iff, !includes_spec.
Qed.

Lemma filterChoices_sublist (S : list Choice) (Q : string) :
  sublist (filterChoices S Q) S.
Proof.
  unfold filterChoices. destruct (negb _); [reflexivity|].
  induction S as [|c S IH]; simpl; [constructor|].
  destruct (choice_matches Q c); now constructor.
Qed.

Lemma filterChoices_In (S : list Choice) (Q : string) (i : Choice) :
  In i (filterChoices S Q) -> In i S.
Proof.
  intros H. apply list_elem_of_In. apply list_elem_of_In in H.
  eapply elem_of_sublist; [exact H | apply filterChoices_sublist].
Qed.

(** C8, as amended: the filter keeps, in their order, exactly the choices
    [i] of [S] such that [Q.trim()] is empty, or the label or the value of
    [i] contains [Q] case-insensitively.  The match-all case is the query
    of white space only, not just the empty query. *)
Theorem filterChoices_keeps (S : list Choice) (Q : string) :
  sublist (filterChoices S Q) S /\
  forall i, In i (filterChoices S Q) <-> In i S /\ code_keeps Q i.
Proof.
  split; [apply filterChoices_sublist|].
  intros i. unfold filterChoices, code_keeps.
  destruct (JS.trim Q) eqn:E; simpl.
  - split; [intros H; split; [exact H | now left] | now intros [H _]].
  - rewrite filter_In, choice_matches_spec. split.
    + intros [H1 H2]. split; [exact H1 | now right].
    + intros [H1 [H2 | H2]]; [discriminate | now split].
Qed.

(** C8, as stated, fails for the query of one space: every choice is kept,
    also one whose label and value hold no space. *)
Lemma filterChoices_blank_query_keeps_all :
  let alpha := mkChoice 0 "Alpha" "alpha" in
  In alpha (filterChoices [alpha] " ") /\ ~ spec_keeps " " alpha.
Proof.
  split; [now left|].
  intros [H | [H | H]]; [discriminate| |];
    apply includes_spec in H; discriminate.
Qed.

(** ** Reconciliation (C1, C2) *)

Module ReconcilerFacts.
Import CDKStackService.

Section Facts.
Variable send : nat -> string -> Result Error DescribeStacksOutput.
Variable now : Z.

(** X24: both [try] blocks of [getStackDetails] answer [null] from their
    [catch]: no error of the lookup leaves the function. *)
Lemma getStackDetails_never_throws (n : nat) (stackName cfStackName : string) :
  exists r, getStackDetails send n stackName cfStackName = Ok r.
Proof.
  unfold getStackDetails.
  destruct (send n cfStackName) as [[[[|stack rest]|]]|e]; simpl; eauto.
Qed.

Lemma getStackDetails_name (n : nat) (stackName cfStackName : string) d :
  getStackDetails send n stackName cfStackName = Ok (Some d) ->
  CDKStackService.stackName d = stackName.
Proof.
  unfold getStackDetails.
  destruct (send n cfStackName) as [[[[|stack rest]|]]|e]; simpl;
    intros H; inversion H; reflexivity.
Qed.

Lemma detail_of_name (n : nat) (stack : StackInfo) :
  stackName (detail_of send now n stack) = fullName stack.
Proof.
  unfold detail_of.
  destruct (getStackDetails send n (fullName stack) (cfStackName stack))
    as [[d|]|e] eqn:E; simpl; try reflexivity.
  eapply getStackDetails_name; exact E.
Qed.

(** The loop pushes one entry per declared stack, in turn. *)
Lemma for_of_push (stackInfo : list StackInfo) (n : nat) (acc : list CDKStack) :
  for_of send now stackInfo n acc =
  (acc ++ imap (fun i stack => detail_of send now (n + i) stack) stackInfo)%list.
Proof.
  revert n acc. induction stackInfo as [|stack rest IH]; intros n acc; simpl.
  - now rewrite app_nil_r.
  - rewrite IH, <- app_assoc. simpl. f_equal. f_equal.
    + f_equal. lia.
    + apply imap_ext. intros i x _. simpl. f_equal. lia.
Qed.

Lemma listCDKStacks_imap (stackInfo : list StackInfo) :
  listCDKStacks send now (Ok stackInfo) =
  imap (fun i stack => detail_of send now i stack) stackInfo.
Proof.
  unfold listCDKStacks. destruct stackInfo as [|stack rest]; [reflexivity|].
  change (JS.alength (stack :: rest) =? 0) with (Z.of_nat (S (length rest)) =? 0).
  destruct (Z.eqb_spec (Z.of_nat (S (length rest))) 0) as [H|_]; [lia|].
  rewrite for_of_push. reflexivity.
Qed.

(** The status of an entry is [UNKNOWN] only when CloudFormation itself
    reported a stack in that status: the [catch] of [listCDKStacks]
    that writes it is never entered. *)
Lemma detail_of_unknown (n : nat) (stack : StackInfo) :
  stackStatus (detail_of send now n stack) = "UNKNOWN" ->
  exists out found rest,
    send n (cfStackName stack) = Ok out /\
    Stacks out = Some (found :: rest) /\ StackStatus found = "UNKNOWN".
Proof.
  unfold detail_of, getStackDetails.
  destruct (send n (cfStackName stack)) as [[[[|found rest]|]]|e]; simpl;
    try discriminate.
  intros H. eexists _, found, rest. repeat split. exact H.
Qed.

(** A lookup that throws gives the same entry as a lookup that finds
    nothing. *)
Lemma detail_of_throw (n : nat) (stack : StackInfo) (e : Error) :
  send n (cfStackName stack) = Throw e ->
  stackStatus (detail_of send now n stack) = "NOT_DEPLOYED".
Proof. unfold detail_of, getStackDetails. now intros ->. Qed.

End Facts.

(** C2: after a successful listing, the reconciled list has one entry per
    declared stack, the i-th entry carries the i-th declared full name,
    and so the names appear in the declared order, none dropped or
    added. *)
Theorem listCDKStacks_one_per_declared
  (send : nat -> string -> Result Error DescribeStacksOutput) (now : Z)
  (declared : list StackInfo) :
  let reconciled := listCDKStacks send now (Ok declared) in
  length reconciled = length declared /\
  List.map stackName reconciled = List.map fullName declared /\
  forall i : nat, stackName <$> reconciled !! i = fullName <$> declared !! i.
Proof.
  cbv zeta. rewrite listCDKStacks_imap. split; [apply length_imap|].
  assert (Hi : forall i : nat,
             stackName <$> imap (fun i stack => detail_of send now i stack) declared !! i
             = fullName <$> declared !! i).
  { intros i. rewrite list_lookup_imap.
    destruct (declared !! i) as [stack|]; simpl; [|reflexivity].
    now rewrite detail_of_name. }
  split; [|exact Hi].
  apply list_eq. intros i.
  change (@List.map) with (@fmap list _). rewrite !list_lookup_fmap. apply Hi.
Qed.

(** C1 at the permission error: the entry of B is still produced and C
    is still processed, but B is reported [NOT_DEPLOYED], the status of a
    stack that was not found, where the claim asks for [UNKNOWN].  The
    same holds whatever the error and the listing: when every lookup
    throws, every declared stack is reported [NOT_DEPLOYED]. *)
Theorem listCDKStacks_lookup_error_not_deployed :
  List.map (fun d => (stackName d, stackStatus d))
    (listCDKStacks Scenarios.send3 0 (Ok Scenarios.declared3)) =
  [ ("A (cf-A)", "CREATE_COMPLETE");
    ("B/Child (cf-B)", "NOT_DEPLOYED");
    ("C (cf-C)", "NOT_DEPLOYED") ] /\
  forall (e : Error) (now : Z) (declared : list StackInfo),
    List.map stackStatus (listCDKStacks (fun _ _ => Throw e) now (Ok declared)) =
    List.map (fun _ => "NOT_DEPLOYED") declared.
Proof.
  split; [reflexivity|].
  intros e now declared. rewrite listCDKStacks_imap.
  apply list_eq. intros i.
  change (@List.map) with (@fmap list _).
  rewrite !list_lookup_fmap, list_lookup_imap.
  destruct (declared !! i) as [stack|]; simpl; [|reflexivity].
  f_equal.
Qed.

End ReconcilerFacts.

(** ** Keys *)

Section KeyFacts.

(** A printable key is none of the control keys the handlers test for. *)
Lemma printable_not_control (key : string) :
  JS.is_printable key = true ->
  String.eqb key CTRL_C = false /\ is_up key = false /\ is_down key = false /\
  String.eqb key ENTER = false /\ String.eqb key ESC = false /\
  is_backspace key = false.
Proof.
  destruct key as [|c [|c' rest]]; try discriminate.
  intros H.
  destruct c as [[] [] [] [] [] [] [] []];
    vm_compute in H; try discriminate H; repeat split; reflexivity.
Qed.

Lemma backspace_not_control (key : string) :
  is_backspace key = true ->
  String.eqb key CTRL_C = false /\ is_up key = false /\ is_down key = false /\
  String.eqb key ENTER = false /\ String.eqb key ESC = false /\
  String.eqb key SPACE = false /\ String.eqb key "/" = false.
Proof.
  unfold is_backspace. rewrite orb_true_iff, !String.eqb_eq.
  intros [-> | ->]; repeat split; reflexivity.
Qed.

Lemma eqb_false_of_neq (a b : string) : a <> b -> String.eqb a b = false.
Proof. apply String.eqb_neq. Qed.

End KeyFacts.

(** ** Printable characters (C4) *)

(** C4, as amended: a printable key appends its character to the search
    query and the visible list is recomputed from the full choice list
    - in [customSearchableSelect] always (the spacebar of its multi-select
      mode apart, which toggles),
    - in [customMultiSelect] while search mode is on;
    outside search mode [customMultiSelect] ignores a printable key other
    than the slash, which opens search mode, and the spacebar. *)
Theorem printable_key_extends_query (choices : list Choice) (key : string) :
  JS.is_printable key = true ->
  (forall (multiSelect : bool) (s : SearchableSelect.State),
      multiSelect = false \/ key <> SPACE ->
      let s' := SearchableSelect.handleKey choices multiSelect s key in
      SearchableSelect.searchQuery s' = (SearchableSelect.searchQuery s ++ key)%string /\
      SearchableSelect.filteredChoices s' =
        filterChoices choices (SearchableSelect.searchQuery s ++ key)) /\
  (forall s : MultiSelect.State,
      MultiSelect.isSearching s = true ->
      let s' := MultiSelect.handleKey choices s key in
      MultiSelect.searchQuery s' = (MultiSelect.searchQuery s ++ key)%string /\
      MultiSelect.filteredChoices s' =
        filterChoices choices (MultiSelect.searchQuery s ++ key)) /\
  (forall s : MultiSelect.State,
      MultiSelect.isSearching s = false -> key <> "/" -> key <> SPACE ->
      MultiSelect.handleKey choices s key = s).
Proof.
  intros Hp.
  destruct (printable_not_control key Hp) as (Hc & Hu & Hd & He & Hx & Hb).
  repeat split.
  - unfold SearchableSelect.handleKey. rewrite Hc, Hu, Hd, He, Hb, Hp.
    destruct H as [-> | Hs].
    + now rewrite andb_false_r.
    + now rewrite (eqb_false_of_neq _ _ Hs).
  - unfold SearchableSelect.handleKey. rewrite Hc, Hu, Hd, He, Hb, Hp.
    destruct H as [-> | Hs].
    + now rewrite andb_false_r.
    + now rewrite (eqb_false_of_neq _ _ Hs).
  - unfold MultiSelect.handleKey. rewrite Hc, H, He, Hx, Hb, Hp.
    now rewrite andb_false_r.
  - unfold MultiSelect.handleKey. rewrite Hc, H, He, Hx, Hb, Hp.
    now rewrite andb_false_r.
  - intros s Hs Hslash Hspace. unfold MultiSelect.handleKey.
    rewrite Hc, Hs, Hu, Hd, He.
    now rewrite (eqb_false_of_neq _ _ Hslash), (eqb_false_of_neq _ _ Hspace).
Qed.

(** C4 at a concrete input: typing "i" after "/ch" leaves Child only. *)
Lemma printable_key_extends_query_witness :
  let choices := [mkChoice 0 "Alpha" "a"; mkChoice 1 "Child" "b"; mkChoice 2 "Other" "c"] in
  let s := MultiSelect.run choices ["/"; "c"; "h"] in
  MultiSelect.isSearching s = true /\
  List.map name (MultiSelect.filteredChoices (MultiSelect.handleKey choices s "i")) = ["Child"].
Proof.
  cbv zeta. split; [reflexivity|].
  pose proof (printable_key_extends_query
                [mkChoice 0 "Alpha" "a"; mkChoice 1 "Child" "b"; mkChoice 2 "Other" "c"]
                "i" eq_refl) as (_ & H & _).
  specialize (H (MultiSelect.run
                   [mkChoice 0 "Alpha" "a"; mkChoice 1 "Child" "b"; mkChoice 2 "Other" "c"]
                   ["/"; "c"; "h"]) eq_refl).
  cbv zeta in H. destruct H as [_ H]. rewrite H. reflexivity.
Defined.

(** C4, as stated, fails in [customMultiSelect] outside search mode: the
    key "a" in the initial state leaves the query empty. *)
Lemma multiselect_browsing_ignores_printable :
  let choices := [mkChoice 0 "Alpha" "a"] in
  JS.is_printable "a" = true /\
  MultiSelect.searchQuery (MultiSelect.handleKey choices (MultiSelect.init choices) "a")
    <> (MultiSelect.searchQuery (MultiSelect.init choices) ++ "a")%string.
Proof. split; [reflexivity | discriminate]. Qed.

(** ** Sessions: induction over the keys received *)

Section SessionInduction.
Variable choices : list Choice.

Lemma searchable_run_snoc (multiSelect : bool) (keys : list string) (key : string) :
  SearchableSelect.run choices multiSelect (keys ++ [key]) =
  SearchableSelect.step choices multiSelect
    (SearchableSelect.run choices multiSelect keys) key.
Proof. unfold SearchableSelect.run. now rewrite fold_left_app. Qed.

Lemma multi_run_snoc (keys : list string) (key : string) :
  MultiSelect.run choices (keys ++ [key]) =
  MultiSelect.step choices (MultiSelect.run choices keys) key.
Proof. unfold MultiSelect.run. now rewrite fold_left_app. Qed.

(** A property of the initial state that every handled key preserves
    holds after any sequence of keys. *)
Lemma searchable_run_ind (multiSelect : bool) (P : SearchableSelect.State -> Prop) :
  P (SearchableSelect.init choices) ->
  (forall s key, P s -> SearchableSelect.outcome s = Running ->
                 P (SearchableSelect.handleKey choices multiSelect s key)) ->
  forall keys, P (SearchableSelect.run choices multiSelect keys).
Proof.
  intros H0 Hstep keys. induction keys as [|key keys IH] using rev_ind; [exact H0|].
  rewrite searchable_run_snoc. unfold SearchableSelect.step.
  destruct (SearchableSelect.outcome _) eqn:E; simpl; try exact IH.
  now apply Hstep.
Qed.

Lemma multi_run_ind (P : MultiSelect.State -> Prop) :
  P (MultiSelect.init choices) ->
  (forall s key, P s -> MultiSelect.outcome s = Running ->
                 P (MultiSelect.handleKey choices s key)) ->
  forall keys, P (MultiSelect.run choices keys).
Proof.
  intros H0 Hstep keys. induction keys as [|key keys IH] using rev_ind; [exact H0|].
  rewrite multi_run_snoc. unfold MultiSelect.step.
  destruct (MultiSelect.outcome _) eqn:E; simpl; try exact IH.
  now apply Hstep.
Qed.

End SessionInduction.

(** ** Raw mode (C6) *)






(** ** Filtering and the selection set (C9) *)

(** C9: in [customMultiSelect] a Backspace, a printable character typed
    into the search, and more generally any key that changes the query or
    the filtered view leave [selectedIndices] (and the selected values) as
    they were; so a choice is drawn checked after the event exactly when
    it was checked before.  (Outside search mode the spacebar is the
    toggle, not a character of the query.) *)
Theorem filtering_keeps_selection (choices : list Choice) (s : MultiSelect.State)
        (key : string) :
  let s' := MultiSelect.handleKey choices s key in
  (is_backspace key = true ->
   MultiSelect.selectedIndices s' = MultiSelect.selectedIndices s) /\
  (JS.is_printable key = true ->
   MultiSelect.isSearching s = true \/ key <> SPACE ->
   MultiSelect.selectedIndices s' = MultiSelect.selectedIndices s) /\
  (MultiSelect.searchQuery s' <> MultiSelect.searchQuery s \/
   MultiSelect.filteredChoices s' <> MultiSelect.filteredChoices s ->
   MultiSelect.selectedIndices s' = MultiSelect.selectedIndices s /\
   MultiSelect.selectedStacks s' = MultiSelect.selectedStacks s /\
   forall choice, checked choices s' choice = checked choices s choice).
Proof.
  cbv zeta. split; [|split].
  - intros Hb.
    destruct (backspace_not_control key Hb) as (Hc & Hu & Hd & He & Hx & Hs & Hsl).
    unfold MultiSelect.handleKey. rewrite Hc, Hsl, He, Hx, Hb, Hu, Hd, Hs. simpl.
    now destruct (MultiSelect.isSearching s).
  - intros Hp Hmode.
    destruct (printable_not_control key Hp) as (Hc & Hu & Hd & He & Hx & Hb).
    unfold MultiSelect.handleKey. rewrite Hc, He, Hx, Hb, Hp, Hu, Hd. simpl.
    destruct (MultiSelect.isSearching s) eqn:Es.
    + now rewrite andb_false_r.
    + destruct Hmode as [Hmode | Hmode]; [discriminate|].
      rewrite (eqb_false_of_neq _ _ Hmode).
      now destruct (String.eqb key "/").
  - intros Hchange.
    assert (MultiSelect.selectedIndices (MultiSelect.handleKey choices s key)
            = MultiSelect.selectedIndices s /\
            MultiSelect.selectedStacks (MultiSelect.handleKey choices s key)
            = MultiSelect.selectedStacks s) as [Hi Hv].
    { revert Hchange. unfold MultiSelect.handleKey.
      handler_cases; simpl; try (intros _; split; reflexivity);
        intros [H | H]; congruence. }
    repeat split; [exact Hi | exact Hv |].
    intros choice. unfold checked. now rewrite Hi.
Qed.

(** The scenario of the specification: indices 0 and 2 are selected, the
    search hides index 2, and clearing the search shows it checked. *)
Lemma filtering_keeps_selection_witness :
  let choices := [mkChoice 0 "Alpha" "a"; mkChoice 1 "Child" "b"; mkChoice 2 "Other" "c"] in
  let s := MultiSelect.run choices [SPACE; ESC ++ "[B"; ESC ++ "[B"; SPACE; "/"; "c"; "h"] in
  let s' := MultiSelect.handleKey choices (MultiSelect.handleKey choices s DEL) DEL in
  List.map name (MultiSelect.filteredChoices s) = ["Child"] /\
  MultiSelect.selectedIndices (MultiSelect.handleKey choices s DEL) = {[ 0; 2 ]} /\
  List.map checkbox (MultiSelect.displayChoices choices s') = [Some true; Some false; Some true].
Proof.
  cbv zeta. split; [reflexivity|]. split; [|reflexivity].
  rewrite (proj1 (filtering_keeps_selection
                    [mkChoice 0 "Alpha" "a"; mkChoice 1 "Child" "b"; mkChoice 2 "Other" "c"]
                    (MultiSelect.run
                       [mkChoice 0 "Alpha" "a"; mkChoice 1 "Child" "b"; mkChoice 2 "Other" "c"]
                       [SPACE; ESC ++ "[B"; ESC ++ "[B"; SPACE; "/"; "c"; "h"])
                    DEL) eq_refl).
  reflexivity.
Defined.

(** ** The cursor and the selection set at an empty view (C3, C7) *)

(** C3 on the failing input.  In [customMultiSelect] the search for "z"
    empties the view and the spacebar then adds [-1] to [selectedIndices]
    before the handler throws; [customSearchableSelect] in multi-select
    mode does the same. *)
Theorem toggle_on_empty_view_selects_minus_one :
  let choices := [mkChoice 0 "Alpha" "a"] in
  let s := MultiSelect.run choices ["/"; "z"; ENTER] in
  let s' := MultiSelect.step choices s SPACE in
  let t := SearchableSelect.run choices true ["z"] in
  let t' := SearchableSelect.step choices true t SPACE in
  (MultiSelect.filteredChoices s = [] /\ MultiSelect.outcome s = Running /\
   MultiSelect.selectedIndices s' = {[ -1 ]} /\ MultiSelect.outcome s' = Threw) /\
  (SearchableSelect.filteredChoices t = [] /\ SearchableSelect.outcome t = Running /\
   SearchableSelect.selectedIndices t' = {[ -1 ]} /\ SearchableSelect.outcome t' = Threw).
Proof. repeat split; reflexivity. Qed.

(** C7 on the failing input.  In [customMultiSelect] the cursor is clamped
    with [Math.min(currentIndex, filteredChoices.length - 1)]: an empty
    view sets it to [-1], and it stays [-1] when Backspace brings the
    choices back.  In [customSearchableSelect] the Down arrow on an empty
    view sets [-1], which the clamp after Backspace keeps. *)
Theorem cursor_negative_after_filter_change :
  let choices := [mkChoice 0 "Alpha" "a"; mkChoice 1 "Child" "b"] in
  let s := MultiSelect.run choices ["/"; "z"; DEL] in
  let t := SearchableSelect.run choices false ["z"; ESC ++ "[B"; DEL] in
  (MultiSelect.currentIndex (MultiSelect.run choices ["/"; "z"]) = -1 /\
   MultiSelect.filteredChoices s = choices /\ MultiSelect.currentIndex s = -1 /\
   MultiSelect.outcome s = Running) /\
  (SearchableSelect.filteredChoices t = choices /\ SearchableSelect.currentIndex t = -1 /\
   SearchableSelect.outcome t = Running).
Proof. repeat split; reflexivity. Qed.

(** X13: in [customSearchableSelect] a cursor that is not negative is inside the
    new view after a filter change (or [0] when the view is empty). *)
Lemma searchable_filter_change_clamps (choices : list Choice) (multiSelect : bool)
      (s : SearchableSelect.State) (key : string) :
  is_backspace key = true \/
  (JS.is_printable key = true /\ (multiSelect = false \/ key <> SPACE)) ->
  0 <= SearchableSelect.currentIndex s ->
  let s' := SearchableSelect.handleKey choices multiSelect s key in
  0 <= SearchableSelect.currentIndex s' <=
    Z.max 0 (JS.alength (SearchableSelect.filteredChoices s') - 1).
Proof.
  intros Hkey Hpos. unfold SearchableSelect.handleKey.
  destruct Hkey as [Hb | [Hp Hsp]].
  - destruct (backspace_not_control key Hb) as (Hc & Hu & Hd & He & Hx & Hs & Hsl).
    rewrite Hc, Hu, Hd, Hs, He, Hb. simpl. lia.
  - destruct (printable_not_control key Hp) as (Hc & Hu & Hd & He & Hx & Hb).
    rewrite Hc, Hu, Hd, He, Hb, Hp.
    assert ((String.eqb key SPACE && multiSelect)%bool = false) as ->.
    { destruct Hsp as [-> | Hsp]; [apply andb_false_r|].
      now rewrite (eqb_false_of_neq _ _ Hsp). }
    simpl. lia.
Qed.

(** ** The deploy and destroy flows (C10) *)

Module DispatchFacts.
Import CDKStackService InteractiveCDKManager.

Section Facts.
Variable config : Config.
Variable cdkInstalled : bool.
Variable label : CDKStack -> string.

Lemma service_call_names (verb : Verb) (names : list string) :
  forall v ns args,
    In (Invoked v ns args) (service_call config cdkInstalled verb names) ->
    v = verb /\ ns = names.
Proof.
  intros v ns args. unfold service_call.
  destruct cdkInstalled; simpl; intros [H | []]; [|discriminate].
  now inversion H.
Qed.

Lemma after_select_names (verb : Verb) (selectedStacks : list string) :
  forall v ns args,
    In (Invoked v ns args) (after_select config cdkInstalled verb selectedStacks) ->
    v = verb /\ selectedStacks <> [] /\ ns = List.map StackNames.clean selectedStacks.
Proof.
  intros v ns args. unfold after_select.
  destruct selectedStacks as [|x rest].
  - simpl. intros [H | []]. discriminate.
  - change (JS.alength (x :: rest) =? 0) with (Z.of_nat (S (length rest)) =? 0).
    destruct (Z.eqb_spec (Z.of_nat (S (length rest))) 0) as [H|_]; [lia|].
    intros H. apply service_call_names in H. destruct H as [-> ->].
    repeat split. discriminate.
Qed.

Lemma select_then_names (verb : Verb) (choices : list Choice) (keys : list string) :
  forall v ns args,
    In (Invoked v ns args) (select_then config cdkInstalled verb choices keys) ->
    v = verb /\
    exists selectedStacks,
      MultiSelect.outcome (MultiSelect.run choices keys) = Resolved selectedStacks /\
      selectedStacks <> [] /\ ns = List.map StackNames.clean selectedStacks.
Proof.
  intros v ns args. unfold select_then.
  destruct (MultiSelect.outcome (MultiSelect.run choices keys)) as [|sel| |];
    try (intros []).
  intros H. apply after_select_names in H. destruct H as (-> & Hne & ->).
  split; [reflexivity|]. now exists sel.
Qed.

End Facts.

(** C10: in the deploy and in the destroy flow, every run of the
    executor carries a non-empty list of stack names, the cleaned
    names of a non-empty confirmed selection; when the session
    resolved to the empty list the executor is not run at all and the
    flow only reports that nothing was selected. *)
Theorem empty_selection_never_dispatches
        (config : Config) (cdkInstalled : bool) (label : CDKStack -> string)
        (stacks : list CDKStack) (keys : list string) :
  (forall verb, after_select config cdkInstalled verb [] = [Said "No stacks selected."]) /\
  (forall v ns args,
      In (Invoked v ns args) (showDeployMenu config cdkInstalled label stacks keys) ->
      v = Deploy /\ ns <> []) /\
  (forall v ns args,
      In (Invoked v ns args) (showDestroyMenu config cdkInstalled label stacks keys) ->
      v = Destroy /\ ns <> []) /\
  (MultiSelect.outcome (MultiSelect.run (choices_of label stacks) keys) = Resolved [] ->
   forall v ns args,
     ~ In (Invoked v ns args) (showDeployMenu config cdkInstalled label stacks keys)) /\
  (MultiSelect.outcome
     (MultiSelect.run
        (choices_of label (List.filter (fun stack => bool_decide (stackId stack ≠ None)) stacks))
        keys) = Resolved [] ->
   forall v ns args,
     ~ In (Invoked v ns args) (showDestroyMenu config cdkInstalled label stacks keys)).
Proof.
  assert (Hne : forall sel : list string, sel <> [] -> List.map StackNames.clean sel <> []).
  { intros [|x rest] H; [congruence | discriminate]. }
  split; [reflexivity|]. repeat split.
  - unfold showDeployMenu in H. destruct (_ =? 0) in H.
    + destruct H as [H | []]. discriminate.
    + now apply select_then_names in H.
  - unfold showDeployMenu in H. destruct (_ =? 0) in H.
    + destruct H as [H | []]. discriminate.
    + apply select_then_names in H. destruct H as (_ & sel & _ & Hs & ->). now apply Hne.
  - unfold showDestroyMenu in H. destruct (_ =? 0) in H.
    + destruct H as [H | []]. discriminate.
    + now apply select_then_names in H.
  - unfold showDestroyMenu in H. destruct (_ =? 0) in H.
    + destruct H as [H | []]. discriminate.
    + apply select_then_names in H. destruct H as (_ & sel & _ & Hs & ->). now apply Hne.
  - intros Hout v ns args H. unfold showDeployMenu in H. destruct (_ =? 0) in H.
    + destruct H as [H | []]. discriminate.
    + apply select_then_names in H. destruct H as (_ & sel & Hr & Hs & _).
      rewrite Hout in Hr. congruence.
  - intros Hout v ns args H. unfold showDestroyMenu in H. destruct (_ =? 0) in H.
    + destruct H as [H | []]. discriminate.
    + apply select_then_names in H. destruct H as (_ & sel & Hr & Hs & _).
      rewrite Hout in Hr. congruence.
Qed.

(** C10 at a concrete input: Enter alone confirms the empty selection and
    nothing is run; with the stack toggled on, one deploy is run. *)
Lemma empty_selection_never_dispatches_witness :
  showDeployMenu (mkConfig "default" "eu-west-1" false) true stackName Scenarios.one_stack [ENTER]
    = [Said "No stacks selected."] /\
  showDeployMenu (mkConfig "default" "eu-west-1" false) true stackName Scenarios.one_stack [SPACE; ENTER]
    = [Invoked Deploy ["Pipeline/ServiceA"]
         ["deploy"; "--require-approval=never"; "Pipeline/ServiceA";
          "--region"; "eu-west-1"; "--require-approval"; "never"]] /\
  forall v ns args,
    ~ In (Invoked v ns args)
        (showDeployMenu (mkConfig "default" "eu-west-1" false) true stackName Scenarios.one_stack [ENTER]).
Proof.
  split; [reflexivity|]. split; [reflexivity|].
  exact (proj1 (proj2 (proj2 (proj2
           (empty_selection_never_dispatches
              (mkConfig "default" "eu-west-1" false) true stackName Scenarios.one_stack [ENTER]))))
           eq_refl).
Defined.

End DispatchFacts.

(** ** The result of a multi-select session (C5) *)

Section ArrayFacts.

Lemma array_get_Some {A} (a : list A) (i : Z) (x : A) :
  JS.array_get a i = Some x <-> 0 <= i /\ a !! Z.to_nat i = Some x.
Proof.
  unfold JS.array_get. destruct (Z.ltb_spec i 0); split.
  - discriminate.
  - intros [? _]. lia.
  - intros ?. now split.
  - now intros [_ ?].
Qed.

Lemma array_get_of_nat {A} (a : list A) (n : nat) :
  JS.array_get a (Z.of_nat n) = a !! n.
Proof.
  unfold JS.array_get. destruct (Z.ltb_spec (Z.of_nat n) 0); [lia|].
  now rewrite Nat2Z.id.
Qed.

(** [indexOf] on an array that holds the object: the position of the
    object itself when the array holds no object twice. *)
Lemma indexOf_from_object (c : Choice) (l : list Choice) (k : Z) :
  c ∈ l -> NoDup (oid <$> l) ->
  exists n : nat, JS.indexOf_from same_object c l k = k + Z.of_nat n /\ l !! n = Some c.
Proof.
  revert k. induction l as [|y l IH]; intros k Hin Hnd; [inversion Hin|].
  simpl. rewrite fmap_cons in Hnd. apply NoDup_cons in Hnd as [Hy Hnd].
  unfold same_object at 1. destruct (Nat.eqb_spec (oid c) (oid y)) as [E|E].
  - exists 0%nat. split; [lia|]. simpl. f_equal.
    apply elem_of_cons in Hin as [->|Hin]; [reflexivity|].
    exfalso. apply Hy. rewrite <- E. now apply list_elem_of_fmap_2.
  - apply elem_of_cons in Hin as [->|Hin]; [congruence|].
    destruct (IH (k + 1) Hin Hnd) as (n & Hn & Hl).
    exists (S n). split; [lia | exact Hl].
Qed.

(** [indexOf] on strings finds a position of the string. *)
Lemma indexOf_from_string (v : string) (l : list string) (k : Z) :
  v ∈ l ->
  exists n : nat, JS.indexOf_from String.eqb v l k = k + Z.of_nat n /\ l !! n = Some v.
Proof.
  revert k. induction l as [|y l IH]; intros k Hin; [inversion Hin|].
  simpl. destruct (String.eqb_spec v y) as [->|E].
  - exists 0%nat. split; [lia | reflexivity].
  - apply elem_of_cons in Hin as [->|Hin]; [congruence|].
    destruct (IH (k + 1) Hin) as (n & Hn & Hl).
    exists (S n). split; [lia | exact Hl].
Qed.

Lemma splice1_at {A} (a : list A) (n : nat) :
  (n < length a)%nat ->
  JS.splice1 a (Z.of_nat n) = (take n a ++ drop (S n) a)%list.
Proof.
  intros H. unfold JS.splice1, JS.alength.
  destruct (Z.ltb_spec (Z.of_nat n) 0); [lia|].
  rewrite Z.min_l by lia. now rewrite Nat2Z.id.
Qed.

(** Removing the one occurrence of [v] from a list without duplicates
    keeps the other elements in their order. *)
Lemma remove_at_filter (l : list string) (n : nat) (v : string) :
  NoDup l -> l !! n = Some v ->
  (take n l ++ drop (S n) l)%list = List.filter (fun x => negb (String.eqb x v)) l.
Proof.
  intros Hnd Hl.
  assert (Hid : forall k : list string, v ∉ k ->
                List.filter (fun x => negb (String.eqb x v)) k = k).
  { induction k as [|x k IHk]; intros Hk; [reflexivity|]. simpl.
    apply not_elem_of_cons in Hk as [Hx Hk].
    destruct (String.eqb_spec x v); [congruence|]. simpl. now rewrite IHk. }
  rewrite <- (take_drop_middle l n v Hl) at 3.
  rewrite <- (take_drop_middle l n v Hl) in Hnd.
  apply NoDup_app in Hnd as (_ & Hdisj & Hnd').
  apply NoDup_cons in Hnd' as [Hv _].
  rewrite List.filter_app. simpl. rewrite String.eqb_refl. simpl.
  rewrite !Hid; auto.
  intros Hin. apply (Hdisj v Hin). left.
Qed.

End ArrayFacts.

Section SelectionOrder.
Variable choices : list Choice.
(** The choices are distinct objects with distinct values, as the menus
    build them: one object per stack, its value the stack's name. *)
Hypothesis distinct_objects : NoDup (oid <$> choices).
Hypothesis distinct_values : NoDup (value <$> choices).

Lemma value_at_nat (n : nat) (c : Choice) :
  choices !! n = Some c -> value_at choices (Z.of_nat n) = Some (value c).
Proof. intros H. unfold value_at. now rewrite array_get_of_nat, H. Qed.

Lemma value_at_inj (i j : Z) (v : string) :
  value_at choices i = Some v -> value_at choices j = Some v -> i = j.
Proof.
  unfold value_at. intros Hi Hj.
  destruct (JS.array_get choices i) as [ci|] eqn:Ei; [|discriminate].
  destruct (JS.array_get choices j) as [cj|] eqn:Ej; [|discriminate].
  apply array_get_Some in Ei as [Hi0 Ei]. apply array_get_Some in Ej as [Hj0 Ej].
  simpl in Hi, Hj. inversion Hi as [Hvi]. inversion Hj as [Hvj].
  assert (Z.to_nat i = Z.to_nat j); [|lia].
  apply (NoDup_lookup (value <$> choices) _ _ v distinct_values).
  - now rewrite list_lookup_fmap, Ei; simpl; rewrite Hvi.
  - now rewrite list_lookup_fmap, Ej; simpl; rewrite Hvj.
Qed.

Lemma value_at_minus_one : value_at choices (-1) = None.
Proof. reflexivity. Qed.

Lemma sel_ok_add (stacks : list string) (sel : gset Z) (n : nat) (c : Choice) :
  sel_ok choices stacks sel -> choices !! n = Some c -> Z.of_nat n ∉ sel ->
  sel_ok choices (stacks ++ [value c]) (sel ∪ {[ Z.of_nat n ]}).
Proof.
  intros [Hnd Hmem] Hc Hn. pose proof (value_at_nat n c Hc) as Hv.
  assert (Hfresh : value c ∉ stacks).
  { intros Hin. apply Hmem in Hin as (i & Hi & Hvi).
    now rewrite (value_at_inj _ _ _ Hvi Hv) in Hi. }
  split.
  - apply NoDup_app. repeat split; [exact Hnd | | apply NoDup_singleton].
    intros x Hx Hx'. apply list_elem_of_singleton in Hx'. now subst.
  - intros v. rewrite elem_of_app, list_elem_of_singleton, Hmem. split.
    + intros [(i & Hi & Hvi) | ->].
      * exists i. split; [apply elem_of_union; now left | exact Hvi].
      * exists (Z.of_nat n). split; [|exact Hv].
        apply elem_of_union. right. now apply elem_of_singleton.
    + intros (i & Hi & Hvi). apply elem_of_union in Hi as [Hi | Hi].
      * left. now exists i.
      * right. apply elem_of_singleton in Hi. subst i. congruence.
Qed.

Lemma sel_ok_remove (stacks : list string) (sel : gset Z) (n : nat) (c : Choice) :
  sel_ok choices stacks sel -> choices !! n = Some c -> Z.of_nat n ∈ sel ->
  let stacks' := JS.splice1 stacks (JS.indexOf String.eqb (value c) stacks) in
  stacks' = List.filter (fun x => negb (String.eqb x (value c))) stacks /\
  sel_ok choices stacks' (sel ∖ {[ Z.of_nat n ]}).
Proof.
  intros [Hnd Hmem] Hc Hn. pose proof (value_at_nat n c Hc) as Hv. cbv zeta.
  assert (Hin : value c ∈ stacks) by (apply Hmem; now exists (Z.of_nat n)).
  destruct (indexOf_from_string _ _ 0 Hin) as (k & Hk & Hl).
  unfold JS.indexOf. rewrite Hk, Z.add_0_l.
  rewrite splice1_at by (eapply lookup_lt_Some; exact Hl).
  rewrite (remove_at_filter _ _ _ Hnd Hl).
  split; [reflexivity|]. split.
  - apply NoDup_ListNoDup, List.NoDup_filter, NoDup_ListNoDup, Hnd.
  - intros v. rewrite list_elem_of_In, filter_In, <- list_elem_of_In, Hmem.
    rewrite negb_true_iff, String.eqb_neq. split.
    + intros [(i & Hi & Hvi) Hne]. exists i. split; [|exact Hvi].
      apply elem_of_difference. split; [exact Hi|].
      intros Hs. apply elem_of_singleton in Hs. subst i. congruence.
    + intros (i & Hi & Hvi). apply elem_of_difference in Hi as [Hi Hs].
      split; [now exists i|]. intros ->. apply Hs, elem_of_singleton.
      exact (value_at_inj _ _ _ Hvi Hv).
Qed.

Lemma sel_ok_minus_one (stacks : list string) (sel : gset Z) :
  sel_ok choices stacks sel ->
  sel_ok choices stacks (sel ∪ {[ -1 ]}) /\ sel_ok choices stacks (sel ∖ {[ -1 ]}).
Proof.
  intros [Hnd Hmem]. split; (split; [exact Hnd|]); intros v; rewrite Hmem;
    split; intros (i & Hi & Hvi); exists i; (split; [|exact Hvi]).
  - apply elem_of_union. now left.
  - apply elem_of_union in Hi as [Hi|Hi]; [exact Hi|].
    apply elem_of_singleton in Hi. subst i. discriminate.
  - apply elem_of_difference. split; [exact Hi|].
    intros Hs. apply elem_of_singleton in Hs. subst i. discriminate.
  - now apply elem_of_difference in Hi as [Hi _].
Qed.

(** The choice under the cursor is found by [indexOf] at its own
    position in the original list. *)
Lemma cursor_choice (s : MultiSelect.State) (c : Choice) :
  (forall c, c ∈ MultiSelect.filteredChoices s -> c ∈ choices) ->
  JS.array_get (MultiSelect.filteredChoices s) (MultiSelect.currentIndex s) = Some c ->
  exists n : nat, indexOfChoice (Some c) choices = Z.of_nat n /\ choices !! n = Some c.
Proof.
  intros Hf Hc. apply array_get_Some in Hc as [_ Hc].
  apply list_elem_of_lookup_2, Hf in Hc.
  destruct (indexOf_from_object c choices 0 Hc distinct_objects) as (n & Hn & Hl).
  exists n. split; [|exact Hl]. simpl. unfold JS.indexOf. rewrite Hn. lia.
Qed.

End SelectionOrder.

Section SelectionRuns.
Variable choices : list Choice.
Hypothesis distinct_objects : NoDup (oid <$> choices).
Hypothesis distinct_values : NoDup (value <$> choices).

(** The spacebar outside search mode, by what is under the cursor. *)
Lemma space_toggles_on (s : MultiSelect.State) (c : Choice) :
  MultiSelect.isSearching s = false ->
  JS.array_get (MultiSelect.filteredChoices s) (MultiSelect.currentIndex s) = Some c ->
  indexOfChoice (Some c) choices ∉ MultiSelect.selectedIndices s ->
  MultiSelect.handleKey choices s SPACE =
  MultiSelect.set_selection s
    (MultiSelect.selectedStacks s ++ [value c])
    (MultiSelect.selectedIndices s ∪ {[ indexOfChoice (Some c) choices ]}).
Proof.
  intros Hs Hc Hn. unfold MultiSelect.handleKey. rewrite Hs, Hc. cbn.
  destruct (decide _) as [Hin|_]; [contradiction | reflexivity].
Qed.

Lemma space_toggles_off (s : MultiSelect.State) (c : Choice) :
  MultiSelect.isSearching s = false ->
  JS.array_get (MultiSelect.filteredChoices s) (MultiSelect.currentIndex s) = Some c ->
  indexOfChoice (Some c) choices ∈ MultiSelect.selectedIndices s ->
  MultiSelect.handleKey choices s SPACE =
  MultiSelect.set_selection s
    (JS.splice1 (MultiSelect.selectedStacks s)
       (JS.indexOf String.eqb (value c) (MultiSelect.selectedStacks s)))
    (MultiSelect.selectedIndices s ∖ {[ indexOfChoice (Some c) choices ]}).
Proof.
  intros Hs Hc Hn. unfold MultiSelect.handleKey. rewrite Hs, Hc. cbn.
  destruct (decide _) as [_|Hout]; [reflexivity | contradiction].
Qed.

Lemma enter_confirms (s : MultiSelect.State) :
  MultiSelect.isSearching s = false ->
  MultiSelect.handleKey choices s ENTER =
  MultiSelect.set_outcome (MultiSelect.release s) (Resolved (MultiSelect.selectedStacks s)).
Proof. intros Hs. unfold MultiSelect.handleKey. now rewrite Hs. Qed.

Lemma selection_inv_init : selection_inv choices (MultiSelect.init choices).
Proof.
  repeat split; simpl; auto.
  - apply NoDup_nil_2.
  - intros H. inversion H.
  - intros (i & Hi & _). now apply elem_of_empty in Hi.
  - discriminate.
Qed.

Lemma selection_inv_step (s : MultiSelect.State) (key : string) :
  selection_inv choices s -> MultiSelect.outcome s = Running ->
  selection_inv choices (MultiSelect.handleKey choices s key).
Proof.
  intros (Hf & Hnd & Hmem & Hres) Hrun.
  assert (Hfilter : forall q c, c ∈ filterChoices choices q -> c ∈ choices).
  { intros q c Hc. apply list_elem_of_In. apply list_elem_of_In in Hc.
    eapply filterChoices_In; exact Hc. }
  unfold MultiSelect.handleKey.
  destruct (String.eqb key CTRL_C).
  { repeat split; simpl; auto; try apply Hmem. discriminate. }
  destruct (String.eqb key "/" && negb (MultiSelect.isSearching s))%bool.
  { repeat split; simpl; auto; apply Hmem. }
  destruct (MultiSelect.isSearching s).
  { handler_cases; (split; [|split; [|split]]); simpl; auto; apply Hfilter. }
  destruct (is_up key).
  { repeat split; simpl; auto; apply Hmem. }
  destruct (is_down key).
  { repeat split; simpl; auto; apply Hmem. }
  destruct (String.eqb key SPACE).
  { destruct (JS.array_get _ _) as [c|] eqn:Ec.
    - destruct (cursor_choice choices distinct_objects s c Hf Ec) as (n & Hn & Hl).
      rewrite Hn. destruct (decide _) as [Hin|Hout].
      + destruct (sel_ok_remove choices distinct_values _ _ n c (conj Hnd Hmem) Hl Hin)
          as (_ & Hnd' & Hmem').
        split; [|split; [|split]]; simpl; auto.
        intros r Hr. rewrite Hrun in Hr. discriminate.
      + destruct (sel_ok_add choices distinct_values _ _ n c (conj Hnd Hmem) Hl Hout)
          as (Hnd' & Hmem').
        split; [|split; [|split]]; simpl; auto.
        intros r Hr. rewrite Hrun in Hr. discriminate.
    - simpl indexOfChoice.
      destruct (sel_ok_minus_one choices _ _ (conj Hnd Hmem)) as [[? ?] [? ?]].
      destruct (decide _); (split; [|split; [|split]]); simpl; auto; discriminate. }
  destruct (String.eqb key ENTER).
  { repeat split; simpl; auto; try apply Hmem. intros r Hr. now inversion Hr. }
  repeat split; simpl; auto; apply Hmem.
Qed.

Lemma selection_inv_run (keys : list string) :
  selection_inv choices (MultiSelect.run choices keys).
Proof.
  apply multi_run_ind; [exact selection_inv_init|].
  intros s key H Hrun. now apply selection_inv_step.
Qed.

End SelectionRuns.

(** C5, as amended: for choices that are distinct objects with distinct
    values, a confirmed multi-select session returns [selectedStacks]: it
    holds exactly the values of the indices in [selectedIndices], each
    once, in the order in which the items were toggled on - toggling an
    item on puts its value at the end of the result, toggling it off takes
    its value out and keeps the order of the others. *)
Theorem confirm_returns_selection_order (choices : list Choice) (keys : list string) :
  NoDup (oid <$> choices) -> NoDup (value <$> choices) ->
  let s := MultiSelect.run choices keys in
  (forall r, MultiSelect.outcome s = Resolved r ->
     r = MultiSelect.selectedStacks s /\ NoDup r /\
     forall v, v ∈ r <->
               exists i, i ∈ MultiSelect.selectedIndices s /\ value_at choices i = Some v) /\
  (MultiSelect.outcome s = Running -> MultiSelect.isSearching s = false ->
   forall c,
     JS.array_get (MultiSelect.filteredChoices s) (MultiSelect.currentIndex s) = Some c ->
     (indexOfChoice (Some c) choices ∉ MultiSelect.selectedIndices s ->
      MultiSelect.outcome (MultiSelect.run choices (keys ++ [SPACE; ENTER])) =
      Resolved (MultiSelect.selectedStacks s ++ [value c])%list) /\
     (indexOfChoice (Some c) choices ∈ MultiSelect.selectedIndices s ->
      MultiSelect.outcome (MultiSelect.run choices (keys ++ [SPACE; ENTER])) =
      Resolved (List.filter (fun v => negb (String.eqb v (value c)))
                  (MultiSelect.selectedStacks s)))).
Proof.
  intros Hoid Hval. cbv zeta.
  destruct (selection_inv_run choices Hoid Hval keys) as (Hf & Hnd & Hmem & Hres).
  split.
  - intros r Hr. apply Hres in Hr. subst r. repeat split; auto; apply Hmem.
  - intros Hrun Hs c Hc.
    assert (Hsteps : MultiSelect.run choices (keys ++ [SPACE; ENTER]) =
                     MultiSelect.step choices
                       (MultiSelect.handleKey choices (MultiSelect.run choices keys) SPACE)
                       ENTER).
    { unfold MultiSelect.run. rewrite fold_left_app. simpl.
      unfold MultiSelect.step at 2. fold (MultiSelect.run choices keys).
      now rewrite Hrun. }
    rewrite Hsteps. split; intros Hsel.
    + rewrite (space_toggles_on choices _ c Hs Hc Hsel).
      unfold MultiSelect.step. simpl. rewrite Hrun. simpl.
      rewrite enter_confirms by exact Hs. reflexivity.
    + rewrite (space_toggles_off choices _ c Hs Hc Hsel).
      unfold MultiSelect.step. simpl. rewrite Hrun. simpl.
      rewrite enter_confirms by exact Hs. simpl.
      destruct (cursor_choice choices Hoid _ c Hf Hc) as (n & Hn & Hl).
      rewrite Hn in Hsel.
      destruct (sel_ok_remove choices Hval _ _ n c (conj Hnd Hmem) Hl Hsel) as (-> & _).
      reflexivity.
Qed.

(** C5 at a concrete input: with Child selected, toggling Alpha on and
    confirming returns Child's value before Alpha's. *)
Lemma confirm_returns_selection_order_witness :
  let choices := [mkChoice 0 "Alpha" "a"; mkChoice 1 "Child" "b"] in
  let keys := [ESC ++ "[B"; SPACE; ESC ++ "[A"] in
  MultiSelect.selectedStacks (MultiSelect.run choices keys) = ["b"] /\
  MultiSelect.outcome (MultiSelect.run choices (keys ++ [SPACE; ENTER])) = Resolved ["b"; "a"].
Proof.
  cbv zeta. split; [reflexivity|].
  assert (H1 : NoDup (oid <$> [mkChoice 0 "Alpha" "a"; mkChoice 1 "Child" "b"])).
  { apply (bool_decide_unpack _). vm_compute. exact I. }
  assert (H2 : NoDup (value <$> [mkChoice 0 "Alpha" "a"; mkChoice 1 "Child" "b"])).
  { apply (bool_decide_unpack _). vm_compute. exact I. }
  pose proof (confirm_returns_selection_order
                [mkChoice 0 "Alpha" "a"; mkChoice 1 "Child" "b"]
                [ESC ++ "[B"; SPACE; ESC ++ "[A"] H1 H2) as [_ H].
  specialize (H eq_refl eq_refl (mkChoice 0 "Alpha" "a") eq_refl).
  destruct H as [H _]. apply H.
  apply (bool_decide_unpack _). vm_compute. exact I.
Defined.

(** C5, as stated, fails: Child is toggled on before Alpha, and the
    session returns the values in that order, not in the order of the
    original list. *)
Lemma confirm_not_in_original_order :
  let choices := [mkChoice 0 "Alpha" "a"; mkChoice 1 "Child" "b"] in
  let s := MultiSelect.run choices [ESC ++ "[B"; SPACE; ESC ++ "[A"; SPACE; ENTER] in
  MultiSelect.selectedIndices s = {[ 0; 1 ]} /\
  MultiSelect.outcome s = Resolved ["b"; "a"] /\
  in_original_order choices (MultiSelect.selectedIndices s) = ["a"; "b"].
Proof. repeat split; reflexivity. Qed.

(** ** The selection set while the session runs *)

(** X12: apart from the state in which the handler has thrown, every index in
    [selectedIndices] is an index of the original list. *)
Lemma selected_in_range_unless_thrown (choices : list Choice) (keys : list string) :
  let s := MultiSelect.run choices keys in
  MultiSelect.outcome s <> Threw ->
  forall i, i ∈ MultiSelect.selectedIndices s -> 0 <= i < JS.alength choices.
Proof.
  cbv zeta.
  apply (multi_run_ind choices
           (fun s => (forall c, c ∈ MultiSelect.filteredChoices s -> c ∈ choices) /\
                     (MultiSelect.outcome s <> Threw ->
                      forall i, i ∈ MultiSelect.selectedIndices s ->
                                0 <= i < JS.alength choices))).
  - split; [auto|]. intros _ i Hi. now apply elem_of_empty in Hi.
  - intros s key [Hf Hsel] Hrun.
    assert (Hsel' := Hsel ltac:(rewrite Hrun; discriminate)). clear Hsel.
    assert (Hfilter : forall q c, c ∈ filterChoices choices q -> c ∈ choices).
    { intros q c Hc. apply list_elem_of_In. apply list_elem_of_In in Hc.
      eapply filterChoices_In; exact Hc. }
    assert (Hidx : forall c, c ∈ choices ->
                   0 <= indexOfChoice (Some c) choices < JS.alength choices).
    { intros c Hc. simpl. unfold JS.indexOf, JS.alength.
      assert (G : forall l k, c ∈ l ->
                  k <= JS.indexOf_from same_object c l k < k + Z.of_nat (length l)).
      { induction l as [|y l IH]; intros k Hin; [inversion Hin|].
        cbn [JS.indexOf_from length].
        destruct (same_object c y) eqn:E; [lia|].
        apply elem_of_cons in Hin as [->|Hin].
        { unfold same_object in E. rewrite Nat.eqb_refl in E. discriminate. }
        specialize (IH (k + 1) Hin). lia. }
      specialize (G choices 0 Hc). lia. }
    unfold MultiSelect.handleKey.
    destruct (String.eqb key CTRL_C); [split; simpl; auto|].
    destruct (String.eqb key "/" && negb (MultiSelect.isSearching s))%bool;
      [split; simpl; auto|].
    destruct (MultiSelect.isSearching s).
    { handler_cases; split; simpl; auto; apply Hfilter. }
    destruct (is_up key); [split; simpl; auto|].
    destruct (is_down key); [split; simpl; auto|].
    destruct (String.eqb key SPACE).
    { destruct (JS.array_get _ _) as [c|] eqn:Ec.
      - apply array_get_Some in Ec as [_ Ec].
        apply list_elem_of_lookup_2, Hf, Hidx in Ec.
        destruct (decide _); split; simpl; auto; intros _ i Hi.
        + apply elem_of_difference in Hi as [Hi _]. auto.
        + apply elem_of_union in Hi as [Hi|Hi]; [auto|].
          apply elem_of_singleton in Hi. now subst i.
      - destruct (decide _); split; simpl; auto; intros H; now contradiction H. }
    destruct (String.eqb key ENTER); split; simpl; auto.
Qed.

(* ===================================================================== *)
(** * Further properties of the code *)
(* ===================================================================== *)

(** ** More on strings *)

Section MoreStringFacts.

Lemma app_String (x : ascii) (a b : string) :
  (String x a ++ b = String x (a ++ b))%string.
Proof. reflexivity. Qed.

Lemma string_app_assoc (a b c : string) : ((a ++ b) ++ c = a ++ (b ++ c))%string.
Proof. induction a as [|x a IH]; [reflexivity|]. now rewrite !app_String, IH. Qed.

Lemma string_app_nil_r (a : string) : (a ++ "" = a)%string.
Proof. induction a as [|x a IH]; [reflexivity|]. now rewrite app_String, IH. Qed.

Lemma toLowerCase_app (a b : string) :
  JS.toLowerCase (a ++ b) = (JS.toLowerCase a ++ JS.toLowerCase b)%string.
Proof.
  induction a as [|x a IH]; [reflexivity|].
  rewrite app_String. cbn [JS.toLowerCase]. now rewrite app_String, IH.
Qed.

Lemma lower_ascii_idem (c : ascii) : JS.lower_ascii (JS.lower_ascii c) = JS.lower_ascii c.
Proof. destruct c as [[] [] [] [] [] [] [] []]; reflexivity. Qed.

Lemma is_space_lower (c : ascii) : JS.is_space (JS.lower_ascii c) = JS.is_space c.
Proof. destruct c as [[] [] [] [] [] [] [] []]; reflexivity. Qed.

Lemma toLowerCase_idem (s : string) : JS.toLowerCase (JS.toLowerCase s) = JS.toLowerCase s.
Proof. induction s as [|c s IH]; simpl; [reflexivity | now rewrite lower_ascii_idem, IH]. Qed.

Lemma all_space_lower (s : string) :
  StackNames.all_space (JS.toLowerCase s) = StackNames.all_space s.
Proof. induction s as [|c s IH]; simpl; [reflexivity | now rewrite is_space_lower, IH]. Qed.

Lemma all_space_app (a b : string) :
  StackNames.all_space (a ++ b) = (StackNames.all_space a && StackNames.all_space b)%bool.
Proof.
  induction a as [|x a IH]; [reflexivity|].
  rewrite app_String. cbn [StackNames.all_space]. now rewrite IH, andb_assoc.
Qed.

(** The test [!query.trim()] of the filter, by the characters of the
    query. *)
Lemma blank_test (q : string) :
  negb (JS.truthy (JS.trim q)) = StackNames.all_space q.
Proof.
  destruct (StackNames.all_space q) eqn:E.
  - apply trim_empty in E. now rewrite E.
  - destruct (JS.trim q) eqn:T; [|reflexivity].
    apply trim_empty in T. congruence.
Qed.

Lemma includes_longer_query (text q k : string) :
  JS.includes text (q ++ k) = true -> JS.includes text q = true.
Proof.
  rewrite !includes_spec. intros (pre & post & H).
  exists pre, (k ++ post)%string. rewrite H. f_equal. apply string_app_assoc.
Qed.

Lemma slice_after_append (q key : string) :
  String.length key = 1%nat -> JS.slice_0_m1 (q ++ key) = q.
Proof.
  destruct key as [|c [|c' rest]]; try discriminate. intros _.
  induction q as [|x q IH]; [reflexivity|].
  rewrite app_String. cbn [JS.slice_0_m1]. rewrite IH. destruct q; reflexivity.
Qed.

Lemma printable_length (key : string) :
  JS.is_printable key = true -> String.length key = 1%nat.
Proof. destruct key as [|c [|c' rest]]; try discriminate. reflexivity. Qed.

End MoreStringFacts.

(** ** The filter along a search *)

Lemma filter_sublist_of_implied {A} (p q : A -> bool) (l : list A) :
  (forall x, p x = true -> q x = true) ->
  sublist (List.filter p l) (List.filter q l).
Proof.
  intros Hpq. induction l as [|x l IH]; simpl; [constructor|].
  destruct (p x) eqn:Ep.
  - rewrite (Hpq x Ep). now constructor.
  - destruct (q x); [now constructor | exact IH].
Qed.

(** X1: typing one more character never brings a choice back: the view for
    the longer query is a sub-list of the view for the shorter one (and
    so Backspace never hides a choice that was visible). *)
Theorem longer_query_narrows_view (choices : list Choice) (q k : string) :
  sublist (filterChoices choices (q ++ k)) (filterChoices choices q).
Proof.
  unfold filterChoices. rewrite !blank_test, all_space_app.
  destruct (StackNames.all_space q) eqn:Eq; simpl.
  - destruct (StackNames.all_space k); [reflexivity|].
    induction choices as [|c l IH]; simpl; [constructor|].
    destruct (choice_matches _ c); now constructor.
  - apply filter_sublist_of_implied. intros c. unfold choice_matches.
    rewrite !orb_true_iff, toLowerCase_app.
    intros [H | H]; [left | right]; eapply includes_longer_query; exact H.
Qed.

(** X2: two queries that differ only in the case of their letters give the
    same view. *)
Theorem query_case_is_ignored (choices : list Choice) (q q' : string) :
  JS.toLowerCase q = JS.toLowerCase q' ->
  filterChoices choices q = filterChoices choices q'.
Proof.
  intros H. unfold filterChoices. rewrite !blank_test.
  rewrite <- (all_space_lower q), <- (all_space_lower q'), H.
  destruct (StackNames.all_space _); [reflexivity|].
  apply filter_ext. intros c. unfold choice_matches. now rewrite H.
Qed.

Lemma query_case_is_ignored_witness :
  let choices := [mkChoice 0 "Alpha" "a"; mkChoice 1 "Child" "b"; mkChoice 2 "Other" "c"] in
  filterChoices choices "CHI" = filterChoices choices "chi" /\
  List.map name (filterChoices choices "CHI") = ["Child"].
Proof.
  split; [|reflexivity].
  exact (query_case_is_ignored
           [mkChoice 0 "Alpha" "a"; mkChoice 1 "Child" "b"; mkChoice 2 "Other" "c"]
           "CHI" "chi" eq_refl).
Defined.

(** ** The view and the query in the searchable select *)

Lemma searchable_view_step (choices : list Choice) (multiSelect : bool)
      (s : SearchableSelect.State) (key : string) :
  SearchableSelect.filteredChoices s = filterChoices choices (SearchableSelect.searchQuery s) ->
  SearchableSelect.filteredChoices (SearchableSelect.handleKey choices multiSelect s key) =
  filterChoices choices
    (SearchableSelect.searchQuery (SearchableSelect.handleKey choices multiSelect s key)).
Proof.
  intros H. unfold SearchableSelect.handleKey. handler_cases; simpl; auto.
Qed.

Lemma index_view_step (choices : list Choice) (multiSelect : bool)
      (s : SearchableSelect.State) (key : string) :
  SearchableSelect.filteredChoices s = filterChoices choices (SearchableSelect.searchQuery s) ->
  SearchableSelect.filteredChoices (IndexSelect.handleKey choices multiSelect s key) =
  filterChoices choices
    (SearchableSelect.searchQuery (IndexSelect.handleKey choices multiSelect s key)).
Proof.
  intros H. unfold IndexSelect.handleKey. handler_cases; simpl; auto.
Qed.

Lemma index_run_ind (choices : list Choice) (multiSelect : bool)
      (P : SearchableSelect.State -> Prop) :
  P (SearchableSelect.init choices) ->
  (forall s key, P s -> SearchableSelect.outcome s = Running ->
                 P (IndexSelect.handleKey choices multiSelect s key)) ->
  forall keys, P (IndexSelect.run choices multiSelect keys).
Proof.
  intros H0 Hstep keys. induction keys as [|key keys IH] using rev_ind; [exact H0|].
  unfold IndexSelect.run in *. rewrite fold_left_app. simpl.
  unfold IndexSelect.step at 1.
  destruct (SearchableSelect.outcome _) eqn:E; simpl; try exact IH.
  now apply Hstep.
Qed.

Lemma searchable_view_inv_run (choices : list Choice) (multiSelect : bool)
      (keys : list string) :
  SearchableSelect.filteredChoices (SearchableSelect.run choices multiSelect keys) =
  filterChoices choices
    (SearchableSelect.searchQuery (SearchableSelect.run choices multiSelect keys)).
Proof.
  apply (searchable_run_ind choices multiSelect
           (fun s => SearchableSelect.filteredChoices s =
                     filterChoices choices (SearchableSelect.searchQuery s)));
    [reflexivity|].
  intros s key H _. now apply searchable_view_step.
Qed.

(** X3: in both copies of [customSearchableSelect] the visible list is, after
    any keys, the filter of the full list by the current query: no key
    leaves a stale view behind. *)
Theorem searchable_view_follows_query (choices : list Choice) (multiSelect : bool)
        (keys : list string) :
  SearchableSelect.filteredChoices (SearchableSelect.run choices multiSelect keys) =
  filterChoices choices
    (SearchableSelect.searchQuery (SearchableSelect.run choices multiSelect keys)) /\
  SearchableSelect.filteredChoices (IndexSelect.run choices multiSelect keys) =
  filterChoices choices
    (SearchableSelect.searchQuery (IndexSelect.run choices multiSelect keys)).
Proof.
  split.
  - apply searchable_view_inv_run.
  - apply (index_run_ind choices multiSelect
             (fun s => SearchableSelect.filteredChoices s =
                       filterChoices choices (SearchableSelect.searchQuery s)));
      [reflexivity|].
    intros s key H _. now apply index_view_step.
Qed.

(** X4: backspace undoes the character just typed: in a running session of
    [customSearchableSelect], a printable key followed by Backspace
    leaves the query, the visible list and the selection as they were
    (the cursor may have been clamped on the way).  In
    [customMultiSelect] the same holds for the query while searching. *)
Theorem backspace_undoes_typing (choices : list Choice) (key : string) :
  JS.is_printable key = true ->
  (forall keys,
      let s := SearchableSelect.run choices false keys in
      let s' := SearchableSelect.run choices false (keys ++ [key; DEL]) in
      SearchableSelect.outcome s = Running ->
      SearchableSelect.outcome s' = Running /\
      SearchableSelect.searchQuery s' = SearchableSelect.searchQuery s /\
      SearchableSelect.filteredChoices s' = SearchableSelect.filteredChoices s /\
      SearchableSelect.selectedIndices s' = SearchableSelect.selectedIndices s) /\
  (forall s : MultiSelect.State,
      MultiSelect.isSearching s = true ->
      let s' := MultiSelect.handleKey choices (MultiSelect.handleKey choices s key) DEL in
      MultiSelect.searchQuery s' = MultiSelect.searchQuery s /\
      MultiSelect.filteredChoices s' = filterChoices choices (MultiSelect.searchQuery s) /\
      MultiSelect.isSearching s' = true).
Proof.
  intros Hp.
  destruct (printable_not_control key Hp) as (Hc & Hu & Hd & He & Hx & Hb).
  pose proof (slice_after_append) as Hslice.
  split.
  - intros keys. cbv zeta. intros Hrun.
    assert (Hsteps : SearchableSelect.run choices false (keys ++ [key; DEL]) =
                     SearchableSelect.step choices false
                       (SearchableSelect.step choices false
                          (SearchableSelect.run choices false keys) key) DEL).
    { unfold SearchableSelect.run. now rewrite fold_left_app. }
    rewrite Hsteps. clear Hsteps.
    set (s := SearchableSelect.run choices false keys) in *.
    assert (E1 : SearchableSelect.step choices false s key =
                 SearchableSelect.set_search s (SearchableSelect.searchQuery s ++ key)
                   (filterChoices choices (SearchableSelect.searchQuery s ++ key))
                   (Z.min (SearchableSelect.currentIndex s)
                      (Z.max 0 (JS.alength
                         (filterChoices choices (SearchableSelect.searchQuery s ++ key)) - 1)))).
    { unfold SearchableSelect.step. rewrite Hrun. cbn [is_running].
      unfold SearchableSelect.handleKey. rewrite Hc, Hu, Hd, He, Hb, Hp.
      now rewrite andb_false_r. }
    rewrite E1. clear E1.
    unfold SearchableSelect.step.
    cbn [SearchableSelect.outcome SearchableSelect.set_search]. rewrite Hrun.
    cbn [is_running].
    change (SearchableSelect.handleKey choices false ?t DEL) with
      (SearchableSelect.set_search t (JS.slice_0_m1 (SearchableSelect.searchQuery t))
         (filterChoices choices (JS.slice_0_m1 (SearchableSelect.searchQuery t)))
         (Z.min (SearchableSelect.currentIndex t)
            (Z.max 0 (JS.alength
               (filterChoices choices
                  (JS.slice_0_m1 (SearchableSelect.searchQuery t))) - 1)))).
    cbn [SearchableSelect.searchQuery SearchableSelect.set_search
         SearchableSelect.outcome SearchableSelect.filteredChoices
         SearchableSelect.selectedIndices].
    rewrite (Hslice _ _ (printable_length key Hp)).
    repeat split; auto.
    symmetry. apply searchable_view_inv_run.
  - intros s Hs. cbv zeta.
    assert (E1 : MultiSelect.handleKey choices s key =
                 MultiSelect.set_search s true (MultiSelect.searchQuery s ++ key)
                   (filterChoices choices (MultiSelect.searchQuery s ++ key))
                   (Z.min (MultiSelect.currentIndex s)
                      (JS.alength
                         (filterChoices choices (MultiSelect.searchQuery s ++ key)) - 1))).
    { unfold MultiSelect.handleKey. rewrite Hc, Hs, He, Hx, Hb, Hp.
      now rewrite andb_false_r. }
    assert (E2 : forall t : MultiSelect.State,
               MultiSelect.isSearching t = true ->
               MultiSelect.handleKey choices t DEL =
               MultiSelect.set_search t true (JS.slice_0_m1 (MultiSelect.searchQuery t))
                 (filterChoices choices (JS.slice_0_m1 (MultiSelect.searchQuery t)))
                 (Z.min (MultiSelect.currentIndex t)
                    (JS.alength
                       (filterChoices choices
                          (JS.slice_0_m1 (MultiSelect.searchQuery t))) - 1))).
    { intros t Ht. unfold MultiSelect.handleKey. rewrite Ht. reflexivity. }
    rewrite E1, E2 by reflexivity.
    cbn [MultiSelect.searchQuery MultiSelect.set_search MultiSelect.filteredChoices
         MultiSelect.isSearching].
    rewrite (Hslice _ _ (printable_length key Hp)).
    repeat split; auto.
Qed.

Lemma backspace_undoes_typing_witness :
  let choices := [mkChoice 0 "Alpha" "a"; mkChoice 1 "Child" "b"; mkChoice 2 "Other" "c"] in
  SearchableSelect.searchQuery (SearchableSelect.run choices false ["c"; "h"; "x"; DEL]) = "ch" /\
  List.map name
    (SearchableSelect.filteredChoices (SearchableSelect.run choices false ["c"; "h"; "x"; DEL]))
  = ["Child"].
Proof.
  cbv zeta.
  destruct (proj1 (backspace_undoes_typing
                     [mkChoice 0 "Alpha" "a"; mkChoice 1 "Child" "b"; mkChoice 2 "Other" "c"]
                     "x" eq_refl) ["c"; "h"] eq_refl) as (_ & Hq & Hf & _).
  split.
  - exact Hq.
  - change (["c"; "h"; "x"; DEL]) with (["c"; "h"] ++ ["x"; DEL])%list.
    rewrite Hf. reflexivity.
Defined.

(** ** The cursor under the arrow keys *)

Lemma arrow_keys (key : string) :
  is_up key = true \/ is_down key = true ->
  In key [ESC ++ "[A"; ESC ++ "[1;2A"; ESC ++ "[1;9A"; ESC ++ "OA";
          ESC ++ "[B"; ESC ++ "[1;2B"; ESC ++ "[1;9B"; ESC ++ "OB"]%string.
Proof.
  unfold is_up, is_down. rewrite !orb_true_iff, !String.eqb_eq. simpl.
  intuition auto.
Qed.

(** X5: the arrow keys move the cursor by at most one place and never out of
    a non-empty view (no wrap-around); they change nothing else.  In
    [customMultiSelect] this is outside search mode. *)
Theorem arrows_keep_cursor_in_view (choices : list Choice) (key : string) :
  is_up key = true \/ is_down key = true ->
  (forall (multiSelect : bool) (s : SearchableSelect.State),
      0 <= SearchableSelect.currentIndex s < JS.alength (SearchableSelect.filteredChoices s) ->
      let s' := SearchableSelect.handleKey choices multiSelect s key in
      0 <= SearchableSelect.currentIndex s' < JS.alength (SearchableSelect.filteredChoices s') /\
      Z.abs (SearchableSelect.currentIndex s' - SearchableSelect.currentIndex s) <= 1 /\
      s' = SearchableSelect.set_currentIndex s (SearchableSelect.currentIndex s')) /\
  (forall s : MultiSelect.State,
      MultiSelect.isSearching s = false ->
      0 <= MultiSelect.currentIndex s < JS.alength (MultiSelect.filteredChoices s) ->
      let s' := MultiSelect.handleKey choices s key in
      0 <= MultiSelect.currentIndex s' < JS.alength (MultiSelect.filteredChoices s') /\
      Z.abs (MultiSelect.currentIndex s' - MultiSelect.currentIndex s) <= 1 /\
      s' = MultiSelect.set_currentIndex s (MultiSelect.currentIndex s')).
Proof.
  intros Hk. apply arrow_keys in Hk. split.
  - intros multiSelect s Hc. cbv zeta.
    repeat (destruct Hk as [<- | Hk]); try contradiction;
      unfold SearchableSelect.handleKey; simpl; (split; [lia | split; [lia | reflexivity]]).
  - intros s Hs Hc. cbv zeta.
    repeat (destruct Hk as [<- | Hk]); try contradiction;
      unfold MultiSelect.handleKey; rewrite Hs; simpl;
        (split; [lia | split; [lia | reflexivity]]).
Qed.

Lemma arrows_keep_cursor_in_view_witness :
  let choices := [mkChoice 0 "Alpha" "a"; mkChoice 1 "Child" "b"] in
  let s := MultiSelect.run choices [ESC ++ "[B"] in
  MultiSelect.currentIndex s = 1 /\
  0 <= MultiSelect.currentIndex (MultiSelect.handleKey choices s (ESC ++ "[B")) < 2.
Proof.
  cbv zeta. split; [reflexivity|].
  destruct (proj2 (arrows_keep_cursor_in_view
                     [mkChoice 0 "Alpha" "a"; mkChoice 1 "Child" "b"]
                     (ESC ++ "[B") (or_intror eq_refl))
              (MultiSelect.run [mkChoice 0 "Alpha" "a"; mkChoice 1 "Child" "b"] [ESC ++ "[B"])
              eq_refl ltac:(split; [discriminate | reflexivity])) as (H & _).
  exact H.
Defined.

(** ** What a single-select session returns *)

Lemma single_inv_run (choices : list Choice) (keys : list string) :
  single_inv choices (SearchableSelect.run choices false keys).
Proof.
  apply searchable_run_ind.
  - repeat split; simpl; auto; [unfold JS.alength; lia | discriminate].
  - intros s key (Hf & Hc & Hr) Hrun.
    assert (Hfilter : forall q c, c ∈ filterChoices choices q -> c ∈ choices).
    { intros q c Hin. apply list_elem_of_In. apply list_elem_of_In in Hin.
      eapply filterChoices_In; exact Hin. }
    assert (Hrun' : forall r, SearchableSelect.outcome s = Resolved r -> False).
    { intros r H. rewrite Hrun in H. discriminate. }
    unfold SearchableSelect.handleKey.
    destruct (String.eqb key CTRL_C).
    { repeat split; simpl; auto. discriminate. }
    destruct (is_up key).
    { repeat split; simpl; auto; [lia | intros r H; now apply Hrun' in H]. }
    destruct (is_down key).
    { repeat split; simpl; auto; [unfold JS.alength in *; lia |
                                  intros r H; now apply Hrun' in H]. }
    rewrite andb_false_r.
    destruct (String.eqb key ENTER).
    { destruct ((0 <? _) && _)%bool eqn:Econd.
      - destruct (JS.array_get _ _) as [c|] eqn:Ec.
        + repeat split; simpl; auto. intros r H. inversion H.
          exists (value c). split; [reflexivity|]. right. exists c.
          repeat split; auto. apply Hf.
          apply array_get_Some in Ec as [_ Ec]. eapply list_elem_of_lookup_2; exact Ec.
        + repeat split; simpl; auto. discriminate.
      - repeat split; simpl; auto. intros r H. inversion H.
        exists "". split; [reflexivity|]. left. split; [|reflexivity].
        apply andb_false_iff in Econd. unfold JS.alength in *.
        destruct (SearchableSelect.filteredChoices s) as [|c l]; [reflexivity|].
        exfalso. simpl length in *.
        destruct Econd as [E | E]; [apply Z.ltb_ge in E | apply Z.ltb_ge in E]; lia. }
    destruct (is_backspace key).
    { repeat split; simpl; auto; [apply Hfilter | lia | intros r H; now apply Hrun' in H]. }
    destruct (JS.is_printable key).
    { repeat split; simpl; auto; [apply Hfilter | lia | intros r H; now apply Hrun' in H]. }
    repeat split; auto.
Qed.

(** X6: a confirmed single-select session returns one string: the value of
    the choice under the cursor in the visible list, which is a choice of
    the original list, or the empty string when the visible list is
    empty.  It never returns a list. *)
Theorem single_select_returns_choice_under_cursor (choices : list Choice)
        (keys : list string) (r : SelectResult) :
  let s := SearchableSelect.run choices false keys in
  SearchableSelect.outcome s = Resolved r ->
  exists v, r = One v /\
    ((SearchableSelect.filteredChoices s = [] /\ v = "") \/
     exists c, JS.array_get (SearchableSelect.filteredChoices s)
                 (SearchableSelect.currentIndex s) = Some c /\
               v = value c /\ c ∈ choices).
Proof.
  cbv zeta. intros H.
  destruct (single_inv_run choices keys) as (_ & _ & Hr). now apply Hr.
Qed.

Lemma single_select_returns_choice_under_cursor_witness :
  let choices := [mkChoice 0 "Alpha" "a"; mkChoice 1 "Child" "b"; mkChoice 2 "Other" "c"] in
  SearchableSelect.outcome (SearchableSelect.run choices false ["z"; ENTER]) = Resolved (One "") /\
  exists v, One "" = One v /\
    ((SearchableSelect.filteredChoices (SearchableSelect.run choices false ["z"; ENTER]) = []
      /\ v = "") \/
     exists c, JS.array_get
                 (SearchableSelect.filteredChoices (SearchableSelect.run choices false ["z"; ENTER]))
                 (SearchableSelect.currentIndex (SearchableSelect.run choices false ["z"; ENTER]))
               = Some c /\ v = value c /\ c ∈ choices).
Proof.
  cbv zeta. split; [reflexivity|].
  exact (single_select_returns_choice_under_cursor
           [mkChoice 0 "Alpha" "a"; mkChoice 1 "Child" "b"; mkChoice 2 "Other" "c"]
           ["z"; ENTER] (One "") eq_refl).
Defined.

(** ** What is drawn *)

Lemma forEach_rows_lookup (f : Choice -> Z -> Row) (l : list Choice) (k : Z) (i : nat) :
  forEach_rows f l k !! i = (fun c => f c (k + Z.of_nat i)) <$> l !! i.
Proof.
  revert k i. induction l as [|c l IH]; intros k i; [reflexivity|].
  destruct i as [|i]; simpl.
  - now rewrite Z.add_0_r.
  - rewrite IH. destruct (l !! i); simpl; [|reflexivity]. do 2 f_equal. lia.
Qed.

(** X7: [displayChoices] of [customMultiSelect] draws one row per visible
    choice, in order, each with a checkbox that tells whether the choice
    is in the selection; the row at the cursor, and no other, carries the
    marker (so no row does when the cursor is outside the view). *)
Theorem multi_display_rows (choices : list Choice) (s : MultiSelect.State) :
  List.map text (MultiSelect.displayChoices choices s) =
  List.map name (MultiSelect.filteredChoices s) /\
  forall (i : nat) (row : Row),
    MultiSelect.displayChoices choices s !! i = Some row ->
    (isCurrent row = true <-> Z.of_nat i = MultiSelect.currentIndex s) /\
    exists c, MultiSelect.filteredChoices s !! i = Some c /\
              checkbox row = Some (checked choices s c).
Proof.
  unfold MultiSelect.displayChoices. split.
  - apply list_eq. intros i. change (@List.map) with (@fmap list _).
    rewrite !list_lookup_fmap, forEach_rows_lookup.
    now destruct (MultiSelect.filteredChoices s !! i).
  - intros i row. rewrite forEach_rows_lookup.
    destruct (MultiSelect.filteredChoices s !! i) as [c|]; [|discriminate].
    simpl. intros H. inversion H. simpl. split.
    + rewrite Z.eqb_eq. lia.
    + exists c. split; reflexivity.
Qed.

(** ** Keys in search mode and unrecognised input *)

(** X8: while [customMultiSelect] is in search mode no key but Ctrl+C ends
    the session or touches the selection: Enter and Escape do not
    confirm, they leave search mode, keep the query and refilter. *)
Theorem search_mode_keys_do_not_confirm (choices : list Choice) (s : MultiSelect.State)
        (key : string) :
  MultiSelect.isSearching s = true -> key <> CTRL_C ->
  let s' := MultiSelect.handleKey choices s key in
  MultiSelect.outcome s' = MultiSelect.outcome s /\
  MultiSelect.selectedStacks s' = MultiSelect.selectedStacks s /\
  MultiSelect.selectedIndices s' = MultiSelect.selectedIndices s /\
  (key = ENTER \/ key = ESC ->
   MultiSelect.isSearching s' = false /\
   MultiSelect.searchQuery s' = MultiSelect.searchQuery s /\
   MultiSelect.filteredChoices s' = filterChoices choices (MultiSelect.searchQuery s)).
Proof.
  intros Hs Hc. cbv zeta. unfold MultiSelect.handleKey.
  rewrite (eqb_false_of_neq _ _ Hc), Hs, andb_false_r.
  destruct (String.eqb key ENTER || String.eqb key ESC)%bool eqn:E.
  - repeat split; reflexivity.
  - assert (Hne : ~ (key = ENTER \/ key = ESC)).
    { intros [-> | ->]; discriminate. }
    destruct (is_backspace key); [repeat split; try reflexivity; tauto|].
    destruct (JS.is_printable key); repeat split; try reflexivity; tauto.
Qed.

Lemma search_mode_keys_do_not_confirm_witness :
  let choices := [mkChoice 0 "Alpha" "a"; mkChoice 1 "Child" "b"] in
  let s := MultiSelect.run choices [SPACE; "/"; "c"] in
  MultiSelect.outcome (MultiSelect.handleKey choices s ENTER) = Running /\
  MultiSelect.selectedStacks (MultiSelect.handleKey choices s ENTER) = ["a"].
Proof.
  cbv zeta.
  destruct (search_mode_keys_do_not_confirm
              [mkChoice 0 "Alpha" "a"; mkChoice 1 "Child" "b"]
              (MultiSelect.run [mkChoice 0 "Alpha" "a"; mkChoice 1 "Child" "b"]
                 [SPACE; "/"; "c"])
              ENTER eq_refl ltac:(discriminate)) as (Ho & Hv & _).
  split; [rewrite Ho | rewrite Hv]; reflexivity.
Defined.

Lemma long_key_is_no_control (key : string) :
  (2 <= String.length key)%nat ->
  String.eqb key CTRL_C = false /\ String.eqb key "/" = false /\
  String.eqb key ENTER = false /\ String.eqb key ESC = false /\
  String.eqb key SPACE = false /\ is_backspace key = false /\
  JS.is_printable key = false.
Proof.
  destruct key as [|a [|b rest]]; simpl; try lia. intros _.
  unfold is_backspace, CTRL_C, ENTER, ESC, SPACE, DEL, BS, chr. simpl.
  repeat split;
    repeat match goal with |- context [if ?b then _ else _] => destruct b end;
    reflexivity.
Qed.

(** X9: a chunk of input of two or more characters that is not one of the
    eight arrow sequences is ignored by both engines, in every state: a
    burst of text read as one chunk is not added to the search. *)
Theorem long_chunk_is_ignored (choices : list Choice) (key : string) :
  (2 <= String.length key)%nat -> is_up key = false -> is_down key = false ->
  (forall (multiSelect : bool) (s : SearchableSelect.State),
      SearchableSelect.handleKey choices multiSelect s key = s) /\
  (forall s : MultiSelect.State, MultiSelect.handleKey choices s key = s).
Proof.
  intros Hlen Hu Hd.
  destruct (long_key_is_no_control key Hlen) as (Hc & Hsl & He & Hx & Hsp & Hb & Hp).
  split.
  - intros multiSelect s. unfold SearchableSelect.handleKey.
    now rewrite Hc, Hu, Hd, Hsp, He, Hb, Hp.
  - intros s. unfold MultiSelect.handleKey.
    rewrite Hc, Hsl, He, Hx, Hb, Hp, Hu, Hd, Hsp. simpl.
    now destruct (MultiSelect.isSearching s).
Qed.

Lemma long_chunk_is_ignored_witness :
  let choices := [mkChoice 0 "Alpha" "a"; mkChoice 1 "Child" "b"] in
  SearchableSelect.run choices false ["chi"] = SearchableSelect.init choices.
Proof.
  cbv zeta. unfold SearchableSelect.run. simpl. unfold SearchableSelect.step. simpl.
  exact (proj1 (long_chunk_is_ignored [mkChoice 0 "Alpha" "a"; mkChoice 1 "Child" "b"]
                  "chi" ltac:(simpl; lia) eq_refl eq_refl) false _).
Defined.

(** ** Toggling twice *)

Lemma indexOf_from_fresh (v : string) (l : list string) (k : Z) :
  v ∉ l -> JS.indexOf_from String.eqb v (l ++ [v]) k = k + Z.of_nat (length l).
Proof.
  revert k. induction l as [|y l IH]; intros k Hv; simpl.
  - rewrite String.eqb_refl. lia.
  - apply not_elem_of_cons in Hv as [Hy Hv].
    rewrite (eqb_false_of_neq _ _ Hy), IH by exact Hv. lia.
Qed.

Lemma splice1_last (l : list string) (v : string) :
  JS.splice1 (l ++ [v]) (Z.of_nat (length l)) = l.
Proof.
  rewrite splice1_at by (rewrite length_app; simpl; lia).
  rewrite take_app_length.
  rewrite drop_ge by (rewrite length_app; simpl; lia).
  apply app_nil_r.
Qed.

(** X10: toggling the choice under the cursor on and off again restores the
    whole state of a running [customMultiSelect] session, the list of
    selected values included (choices being distinct objects with distinct
    values). *)
Theorem double_toggle_restores (choices : list Choice) (keys : list string) (c : Choice) :
  NoDup (oid <$> choices) -> NoDup (value <$> choices) ->
  let s := MultiSelect.run choices keys in
  MultiSelect.isSearching s = false ->
  JS.array_get (MultiSelect.filteredChoices s) (MultiSelect.currentIndex s) = Some c ->
  indexOfChoice (Some c) choices ∉ MultiSelect.selectedIndices s ->
  MultiSelect.handleKey choices (MultiSelect.handleKey choices s SPACE) SPACE = s.
Proof.
  intros Hoid Hval. cbv zeta. intros Hs Hc Hsel.
  destruct (selection_inv_run choices Hoid Hval keys) as (Hf & Hnd & Hmem & _).
  set (s := MultiSelect.run choices keys) in *.
  destruct (cursor_choice choices Hoid s c Hf Hc) as (n & Hn & Hl).
  assert (Hfresh : value c ∉ MultiSelect.selectedStacks s).
  { intros Hin. apply Hmem in Hin as (i & Hi & Hvi).
    rewrite (value_at_inj choices Hval _ _ _ Hvi (value_at_nat choices n c Hl)) in Hi.
    now rewrite Hn in Hsel. }
  rewrite (space_toggles_on choices s c Hs Hc Hsel).
  rewrite (space_toggles_off choices _ c); [| exact Hs | exact Hc |].
  - cbn [MultiSelect.selectedStacks MultiSelect.selectedIndices MultiSelect.set_selection].
    unfold JS.indexOf. rewrite indexOf_from_fresh by exact Hfresh.
    rewrite Z.add_0_l, splice1_last.
    assert (Hset : (MultiSelect.selectedIndices s ∪ {[indexOfChoice (Some c) choices]})
                     ∖ {[indexOfChoice (Some c) choices]} = MultiSelect.selectedIndices s).
    { apply set_eq. intros x.
      rewrite elem_of_difference, elem_of_union, elem_of_singleton. split.
      - intros [[H | H] Hne]; [exact H | contradiction].
      - intros H. split; [now left | congruence]. }
    unfold MultiSelect.set_selection.
    cbn [MultiSelect.selectedStacks MultiSelect.currentIndex MultiSelect.selectedIndices
         MultiSelect.searchQuery MultiSelect.isSearching MultiSelect.filteredChoices
         MultiSelect.rawMode MultiSelect.paused MultiSelect.outcome].
    rewrite Hset. now destruct s.
  - cbn [MultiSelect.selectedIndices MultiSelect.set_selection].
    apply elem_of_union. right. now apply elem_of_singleton.
Qed.

Lemma double_toggle_restores_witness :
  let choices := [mkChoice 0 "Alpha" "a"; mkChoice 1 "Child" "b"] in
  let s := MultiSelect.run choices [ESC ++ "[B"; SPACE; ESC ++ "[A"] in
  MultiSelect.selectedStacks s = ["b"] /\
  MultiSelect.handleKey choices (MultiSelect.handleKey choices s SPACE) SPACE = s.
Proof.
  cbv zeta. split; [reflexivity|].
  apply (double_toggle_restores
           [mkChoice 0 "Alpha" "a"; mkChoice 1 "Child" "b"]
           [ESC ++ "[B"; SPACE; ESC ++ "[A"] (mkChoice 0 "Alpha" "a")).
  - apply (bool_decide_unpack _). vm_compute. exact I.
  - apply (bool_decide_unpack _). vm_compute. exact I.
  - reflexivity.
  - reflexivity.
  - apply (bool_decide_unpack _). vm_compute. exact I.
Defined.

(** ** Where the selected values come from *)

Lemma splice1_elem {A} (l : list A) (i : Z) (x : A) : x ∈ JS.splice1 l i -> x ∈ l.
Proof.
  unfold JS.splice1. intros H. apply elem_of_app in H as [H | H].
  - eapply elem_of_sublist; [exact H | apply sublist_take].
  - eapply elem_of_sublist; [exact H | apply sublist_drop].
Qed.

Lemma multi_values_inv (choices : list Choice) (keys : list string) :
  let s := MultiSelect.run choices keys in
  (forall c, c ∈ MultiSelect.filteredChoices s -> c ∈ choices) /\
  (forall v, v ∈ MultiSelect.selectedStacks s -> exists c, c ∈ choices /\ value c = v) /\
  (forall r, MultiSelect.outcome s = Resolved r -> r = MultiSelect.selectedStacks s).
Proof.
  cbv zeta. apply multi_run_ind.
  - repeat split; simpl; auto; [intros v H; inversion H | discriminate].
  - intros s key (Hf & Hv & Hr) Hrun.
    assert (Hfilter : forall q c, c ∈ filterChoices choices q -> c ∈ choices).
    { intros q c Hin. apply list_elem_of_In. apply list_elem_of_In in Hin.
      eapply filterChoices_In; exact Hin. }
    assert (Hrun' : forall r, MultiSelect.outcome s = Resolved r ->
                              r = MultiSelect.selectedStacks s).
    { intros r H. rewrite Hrun in H. discriminate. }
    unfold MultiSelect.handleKey.
    destruct (String.eqb key CTRL_C); [repeat split; simpl; auto; discriminate|].
    destruct (String.eqb key "/" && negb (MultiSelect.isSearching s))%bool;
      [repeat split; simpl; auto|].
    destruct (MultiSelect.isSearching s).
    { handler_cases; repeat split; simpl; auto; apply Hfilter. }
    destruct (is_up key); [repeat split; simpl; auto|].
    destruct (is_down key); [repeat split; simpl; auto|].
    destruct (String.eqb key SPACE).
    { destruct (JS.array_get _ _) as [c|] eqn:Ec.
      - assert (Hc : c ∈ choices).
        { apply Hf. apply array_get_Some in Ec as [_ Ec].
          eapply list_elem_of_lookup_2; exact Ec. }
        destruct (decide _); repeat split; simpl; auto;
          try (intros r H; rewrite Hrun in H; discriminate).
        + intros v H. apply splice1_elem in H. auto.
        + intros v H. apply elem_of_app in H as [H | H]; [auto|].
          apply list_elem_of_singleton in H. subst v. now exists c.
      - destruct (decide _); repeat split; simpl; auto; discriminate. }
    destruct (String.eqb key ENTER); repeat split; simpl; auto.
    intros r H. now inversion H.
Qed.

(** X11: whatever the keys and whatever the choices, each value a confirmed
    [customMultiSelect] session returns is the value of a choice of the
    list it was given. *)
Theorem multi_select_returns_values_of_choices (choices : list Choice) (keys : list string)
        (r : list string) :
  MultiSelect.outcome (MultiSelect.run choices keys) = Resolved r ->
  forall v, v ∈ r -> exists c, c ∈ choices /\ value c = v.
Proof.
  intros H v Hv. destruct (multi_values_inv choices keys) as (_ & Hvals & Hr).
  apply Hr in H. subst r. now apply Hvals.
Qed.

Lemma multi_select_returns_values_of_choices_witness :
  let choices := [mkChoice 0 "Alpha" "a"; mkChoice 1 "Child" "b"] in
  exists c, c ∈ choices /\ value c = "b".
Proof.
  cbv zeta.
  apply (multi_select_returns_values_of_choices
           [mkChoice 0 "Alpha" "a"; mkChoice 1 "Child" "b"]
           [ESC ++ "[B"; SPACE; ENTER] ["b"] eq_refl "b").
  apply list_elem_of_singleton. reflexivity.
Defined.

(** ** What the flows hand to the executor *)

Module FlowFacts.
Import CDKStackService InteractiveCDKManager.

Lemma choices_of_value (label : CDKStack -> string) (stacks : list CDKStack) (c : Choice) :
  c ∈ choices_of label stacks -> exists st, st ∈ stacks /\ value c = stackName st.
Proof.
  unfold choices_of. intros H. apply list_elem_of_lookup_1 in H as [i H].
  rewrite list_lookup_imap in H.
  destruct (stacks !! i) as [st|] eqn:E; [|discriminate].
  simpl in H. inversion H. exists st. split; [|reflexivity].
  eapply list_elem_of_lookup_2; exact E.
Qed.

Lemma select_then_from_choices (config : Config) (cdkInstalled : bool) (verb : Verb)
      (choices : list Choice) (keys : list string) v ns args :
  In (Invoked v ns args) (select_then config cdkInstalled verb choices keys) ->
  forall n, n ∈ ns -> exists c, c ∈ choices /\ n = StackNames.clean (value c).
Proof.
  intros H n Hn. apply DispatchFacts.select_then_names in H.
  destruct H as (_ & sel & Hsel & _ & ->).
  change (@List.map) with (@fmap list _) in Hn.
  apply list_elem_of_fmap in Hn as (x & -> & Hx).
  destruct (multi_values_inv choices keys) as (_ & Hvals & Hr).
  apply Hr in Hsel. subst sel.
  destruct (Hvals x Hx) as (c & Hc & <-).
  now exists c.
Qed.

(** X14: every name the deploy flow hands to the executor is the cleaned name
    of a stack of the inventory, and every name the destroy flow hands
    over is the cleaned name of a stack that has a CloudFormation id: a
    stack reported as not deployed can never be sent to destroy. *)
Theorem flows_act_on_inventory (config : Config) (cdkInstalled : bool)
        (label : CDKStack -> string) (stacks : list CDKStack) (keys : list string) :
  (forall v ns args n,
      In (Invoked v ns args) (showDeployMenu config cdkInstalled label stacks keys) ->
      n ∈ ns -> exists st, st ∈ stacks /\ n = StackNames.clean (stackName st)) /\
  (forall v ns args n,
      In (Invoked v ns args) (showDestroyMenu config cdkInstalled label stacks keys) ->
      n ∈ ns ->
      exists st, st ∈ stacks /\ stackId st <> None /\ n = StackNames.clean (stackName st)).
Proof.
  split; intros v ns args n H Hn.
  - unfold showDeployMenu in H. destruct (_ =? 0) in H.
    + destruct H as [H | []]. discriminate.
    + destruct (select_then_from_choices _ _ _ _ _ _ _ _ H n Hn) as (c & Hc & ->).
      apply choices_of_value in Hc as (st & Hst & ->). now exists st.
  - unfold showDestroyMenu in H. destruct (_ =? 0) in H.
    + destruct H as [H | []]. discriminate.
    + destruct (select_then_from_choices _ _ _ _ _ _ _ _ H n Hn) as (c & Hc & ->).
      apply choices_of_value in Hc as (st & Hst & ->).
      apply list_elem_of_In, filter_In in Hst as [Hst Hid].
      exists st. repeat split; [now apply list_elem_of_In|].
      now apply bool_decide_eq_true in Hid.
Qed.

Lemma flows_act_on_inventory_witness :
  exists st, st ∈ Scenarios.one_stack /\
             "Pipeline/ServiceA" = StackNames.clean (stackName st).
Proof.
  apply (proj1 (flows_act_on_inventory (mkConfig "default" "eu-west-1" false) true stackName
                  Scenarios.one_stack [SPACE; ENTER])
           Deploy ["Pipeline/ServiceA"]
           ["deploy"; "--require-approval=never"; "Pipeline/ServiceA";
            "--region"; "eu-west-1"; "--require-approval"; "never"]
           "Pipeline/ServiceA").
  - left. reflexivity.
  - apply list_elem_of_singleton. reflexivity.
Defined.





End FlowFacts.

(** ** The copy of the select in index.js *)







(** ** The listing of declared stacks *)

Module ListingFacts.
Import CDKStackService CDKExecutor.

Lemma trimStart_head (s t : string) (c : ascii) :
  JS.trimStart s = String c t -> JS.is_space c = false.
Proof.
  induction s as [|x s IH]; simpl; [discriminate|].
  destruct (JS.is_space x) eqn:E; [exact IH|]. intros H. inversion H. now subst.
Qed.

Lemma trimEnd_head (y t : string) (c : ascii) :
  JS.trimEnd y = String c t -> exists t', y = String c t'.
Proof.
  destruct y as [|x y]; simpl; [discriminate|].
  destruct (JS.trimEnd y); [destruct (JS.is_space x)|]; intros H; inversion H; eauto.
Qed.

Lemma trim_head (s t : string) (c : ascii) :
  JS.trim s = String c t -> JS.is_space c = false.
Proof.
  unfold JS.trim. intros H. apply trimEnd_head in H as [t' H].
  eapply trimStart_head; exact H.
Qed.

Lemma trimEnd_idem (x : string) : JS.trimEnd (JS.trimEnd x) = JS.trimEnd x.
Proof.
  induction x as [|c x IH]; [reflexivity|]. simpl.
  destruct (JS.trimEnd x) as [|d t] eqn:E.
  - destruct (JS.is_space c) eqn:Ec; simpl; [reflexivity | now rewrite Ec].
  - cbn [JS.trimEnd]. cbn [JS.trimEnd] in IH. now rewrite IH.
Qed.

Lemma trim_trimEnd (s : string) : JS.trimEnd (JS.trim s) = JS.trim s.
Proof. unfold JS.trim. apply trimEnd_idem. Qed.

(** A string that [trimEnd] leaves alone has no white space at its end. *)
Lemma no_trailing_space (a b : string) :
  JS.trimEnd (a ++ b) = (a ++ b)%string -> StackNames.all_space b = true -> b = "".
Proof.
  induction a as [|c a IH]; intros H Hb.
  - change (JS.trimEnd b = b) in H. apply trimEnd_empty in Hb. congruence.
  - rewrite app_String in H. cbn [JS.trimEnd] in H.
    destruct (JS.trimEnd (a ++ b)) as [|d t] eqn:E.
    + destruct (JS.is_space c); [discriminate|]. inversion H as [H1].
      destruct a; [|discriminate]. exact (eq_sym H1).
    + apply IH; [|exact Hb]. inversion H as [H1]. congruence.
Qed.

Lemma group_then_end_split (s : string) :
  StackNames.group_then_end s = true ->
  exists X ws, s = (X ++ ")" ++ ws)%string /\
               JSText.group_to_end (X ++ ")") = Some X /\
               StackNames.all_space ws = true.
Proof.
  induction s as [|c s IH]; simpl; [discriminate|].
  destruct (Ascii.eqb_spec c ")") as [->|Hc].
  - intros H. exists "", s. repeat split; auto.
  - intros H. destruct (IH H) as (X & ws & -> & Hg & Hws).
    exists (String c X), ws. repeat split; auto.
    rewrite app_String. cbn [JSText.group_to_end].
    destruct (Ascii.eqb_spec c ")"); [contradiction|]. now rewrite Hg.
Qed.

Lemma existsb_string_app (p : ascii -> bool) (a b : string) :
  JSText.existsb_string p (a ++ b) =
  (JSText.existsb_string p a || JSText.existsb_string p b)%bool.
Proof.
  induction a as [|c a IH]; [reflexivity|].
  rewrite app_String. cbn [JSText.existsb_string]. now rewrite IH, orb_assoc.
Qed.

Lemma match_parens_nonempty (s x : string) : JSText.match_parens s = Some x -> x <> "".
Proof.
  induction s as [|c s IH]; simpl; [discriminate|].
  destruct (Ascii.eqb c "("); [|exact IH].
  destruct (JSText.group_to_end s) as [[|a y]|]; try exact IH.
  intros H. inversion H. discriminate.
Qed.

(** The name looked up in CloudFormation is never empty for a kept line. *)
Lemma cf_name_nonempty (t : string) :
  t <> "" -> JS.trim t = t -> JSText.existsb_string JSText.is_letter t = true ->
  JSText.or_else (JSText.match_parens t) (StackNames.clean t) <> "".
Proof.
  intros Hne Htrim Hletter.
  destruct (JSText.match_parens t) as [x|] eqn:Em.
  - pose proof (match_parens_nonempty _ _ Em) as Hx.
    unfold JSText.or_else. destruct x; [congruence | exact Hx].
  - unfold JSText.or_else. destruct t as [|c t]; [congruence|].
    cbn [StackNames.clean]. destruct (StackNames.paren_suffix (String c t)) eqn:Ep;
      [|discriminate].
    exfalso. pose proof (trim_head _ _ _ Htrim) as Hc.
    cbn [StackNames.paren_suffix] in Ep. rewrite Hc in Ep.
    destruct (Ascii.eqb_spec c "(") as [->|_]; [|discriminate].
    apply group_then_end_split in Ep as (X & ws & -> & Hg & Hws).
    assert (Hend : JS.trimEnd (String "(" (X ++ ")" ++ ws)) = String "(" (X ++ ")" ++ ws)).
    { rewrite <- Htrim. apply trim_trimEnd. }
    assert (Hshape : String "(" (X ++ ")" ++ ws) = (String "(" (X ++ ")") ++ ws)%string).
    { now rewrite (app_String "(" (X ++ ")") ws), (string_app_assoc X ")" ws). }
    assert (Hws' : ws = "").
    { apply (no_trailing_space (String "(" (X ++ ")")) ws); [|exact Hws].
      rewrite <- Hshape. exact Hend. }
    subst ws. rewrite string_app_nil_r in *.
    cbn [JSText.match_parens] in Em. simpl Ascii.eqb in Em. cbv iota in Em.
    rewrite Hg in Em. destruct X as [|a X]; [|discriminate].
    simpl in Hletter. discriminate.
Qed.

Lemma parse_output_elem (output : string) (info : StackInfo) :
  info ∈ parse_output output ->
  exists line, line ∈ JSText.split_char "010" output /\
               keep_line line = true /\ parse_line line = Some info.
Proof.
  unfold parse_output. intros H. apply list_elem_of_omap in H as (line & Hl & Hp).
  apply list_elem_of_In, filter_In in Hl as [Hl Hk]. exists line.
  repeat split; auto. now apply list_elem_of_In.
Qed.

Lemma keep_line_name (line : string) :
  keep_line line = true ->
  JS.trim line <> "" /\
  JSText.forallb_string name_char (JS.trim line) = true /\
  JSText.existsb_string JSText.is_letter (JS.trim line) = true.
Proof.
  unfold keep_line. cbv zeta. intros H.
  repeat (apply andb_true_iff in H as [H ?]).
  match goal with
  | Hx : looks_like_name _ = true |- _ =>
      unfold looks_like_name in Hx; apply andb_true_iff in Hx as [_ Hx]
  end.
  repeat split; auto.
  intros E. rewrite E in H. discriminate.
Qed.

(** X18: every stack [listStacks] returns comes from a line of the output of
    a successful [cdk list]: its full name is that line trimmed, is not
    empty, holds only letters, digits, hyphens, underscores, slashes,
    parentheses and white space, and at least one letter; and the name
    under which it will be looked up in CloudFormation is never empty. *)
Theorem listStacks_records_are_names (result : CommandResult) (stackInfo : list StackInfo)
        (info : StackInfo) :
  listStacks result = Listed stackInfo -> info ∈ stackInfo ->
  success result = true /\
  (exists out line, output result = Some out /\
      line ∈ JSText.split_char "010" out /\ fullName info = JS.trim line) /\
  fullName info <> "" /\
  JSText.forallb_string name_char (fullName info) = true /\
  JSText.existsb_string JSText.is_letter (fullName info) = true /\
  cfStackName info <> "".
Proof.
  unfold listStacks. destruct (success result); [|discriminate]. simpl.
  destruct (output result) as [out|]; [|discriminate].
  destruct (JS.truthy out); [|discriminate].
  intros H Hin. inversion H. subst stackInfo.
  apply parse_output_elem in Hin as (line & Hl & Hk & Hp).
  destruct (keep_line_name line Hk) as (Hne & Hchars & Hletter).
  unfold parse_line in Hp. cbv zeta in Hp.
  destruct (JS.truthy (JS.trim line)); [|discriminate]. simpl in Hp.
  inversion Hp. simpl. repeat split; auto.
  - exists out, line. auto.
  - apply cf_name_nonempty; auto.
    unfold JS.trim at 1. fold (JS.trim line).
    assert (Hs : JS.trimStart (JS.trim line) = JS.trim line).
    { destruct (JS.trim line) as [|c t] eqn:E; [reflexivity|].
      simpl. now rewrite (trim_head _ _ _ E). }
    rewrite Hs. apply trim_trimEnd.
Qed.

Lemma listStacks_records_are_names_witness :
  let result := mkCommandResult true (Some "  Pipeline/ServiceA (cf-a)") None in
  listStacks result = Listed [mkStackInfo "ServiceA" "Pipeline/ServiceA (cf-a)" "cf-a"] /\
  cfStackName (mkStackInfo "ServiceA" "Pipeline/ServiceA (cf-a)" "cf-a") <> "".
Proof.
  cbv zeta. split; [reflexivity|].
  apply (listStacks_records_are_names
           (mkCommandResult true (Some "  Pipeline/ServiceA (cf-a)") None)
           [mkStackInfo "ServiceA" "Pipeline/ServiceA (cf-a)" "cf-a"]
           (mkStackInfo "ServiceA" "Pipeline/ServiceA (cf-a)" "cf-a") eq_refl).
  apply list_elem_of_singleton. reflexivity.
Defined.

Lemma listing_sublist (lines : list string) :
  sublist (fullName <$> omap parse_line (List.filter keep_line lines)) (JS.trim <$> lines).
Proof.
  induction lines as [|line lines IH]; [constructor|].
  rewrite fmap_cons. cbn [List.filter].
  destruct (keep_line line); [|now constructor].
  cbn [omap list_omap].
  destruct (parse_line line) as [info|] eqn:Ep; [|now constructor].
  rewrite fmap_cons.
  assert (Hn : fullName info = JS.trim line).
  { unfold parse_line in Ep. cbv zeta in Ep.
    destruct (negb (JS.truthy (JS.trim line))); [discriminate|].
    now inversion Ep. }
  rewrite Hn. now constructor.
Qed.

(** X19: [listStacks] returns the stacks in the order of the lines of the
    output, at most one per line: their full names are a sub-list of the
    trimmed lines. *)
Theorem listStacks_keeps_line_order (result : CommandResult) (stackInfo : list StackInfo) :
  listStacks result = Listed stackInfo ->
  exists out, output result = Some out /\
    sublist (fullName <$> stackInfo) (JS.trim <$> JSText.split_char "010" out) /\
    (length stackInfo <= length (JSText.split_char "010" out))%nat.
Proof.
  unfold listStacks. destruct (success result); [|discriminate]. simpl.
  destruct (output result) as [out|]; [|discriminate].
  destruct (JS.truthy out); [|discriminate].
  intros H. inversion H. exists out. split; [reflexivity|].
  pose proof (listing_sublist (JSText.split_char "010" out)) as Hs.
  split; [exact Hs|].
  apply sublist_length in Hs. now rewrite !length_fmap in Hs.
Qed.

Lemma listStacks_keeps_line_order_witness :
  exists out,
    Some ("[WARNING] x" ++ String "010" "B (cf-b)" ++ String "010" "A (cf-a)")%string = Some out /\
    sublist (fullName <$> [mkStackInfo "B" "B (cf-b)" "cf-b"; mkStackInfo "A" "A (cf-a)" "cf-a"])
      (JS.trim <$> JSText.split_char "010" out) /\
    (2 <= length (JSText.split_char "010" out))%nat.
Proof.
  exact (listStacks_keeps_line_order
           (mkCommandResult true
              (Some ("[WARNING] x" ++ String "010" "B (cf-b)" ++ String "010" "A (cf-a)")%string)
              None)
           [mkStackInfo "B" "B (cf-b)" "cf-b"; mkStackInfo "A" "A (cf-a)" "cf-a"] eq_refl).
Defined.

Lemma forallb_string_app (p : ascii -> bool) (a b : string) :
  JSText.forallb_string p (a ++ b) =
  (JSText.forallb_string p a && JSText.forallb_string p b)%bool.
Proof.
  induction a as [|c a IH]; [reflexivity|].
  rewrite app_String. cbn [JSText.forallb_string]. now rewrite IH, andb_assoc.
Qed.

Lemma trimEnd_snoc (s : string) (c : ascii) :
  JS.is_space c = false -> JS.trimEnd (s ++ String c "") = (s ++ String c "")%string.
Proof.
  intros Hc. induction s as [|x s IH].
  - change ("" ++ String c "")%string with (String c "").
    cbn [JS.trimEnd]. now rewrite Hc.
  - rewrite app_String. cbn [JS.trimEnd]. rewrite IH.
    destruct s; reflexivity.
Qed.

Lemma group_to_end_plain (X : string) :
  JSText.forallb_string (fun c => negb (Ascii.eqb c ")")) X = true ->
  JSText.group_to_end (X ++ ")") = Some X.
Proof.
  induction X as [|c X IH]; [reflexivity|].
  cbn [JSText.forallb_string]. rewrite andb_true_iff, negb_true_iff. intros [Hc HX].
  rewrite app_String. cbn [JSText.group_to_end]. now rewrite Hc, IH.
Qed.

Lemma group_then_end_plain (X : string) :
  JSText.forallb_string (fun c => negb (Ascii.eqb c ")")) X = true ->
  StackNames.group_then_end (X ++ ")") = true.
Proof.
  induction X as [|c X IH]; [reflexivity|].
  cbn [JSText.forallb_string]. rewrite andb_true_iff, negb_true_iff. intros [Hc HX].
  rewrite app_String. cbn [StackNames.group_then_end]. now rewrite Hc, IH.
Qed.

Lemma match_parens_after (pre rest x : string) :
  JSText.forallb_string (fun c => negb (Ascii.eqb c "(")) pre = true ->
  JSText.match_parens rest = Some x ->
  JSText.match_parens (pre ++ rest) = Some x.
Proof.
  intros Hpre Hrest. induction pre as [|c pre IH]; [exact Hrest|].
  cbn [JSText.forallb_string] in Hpre. apply andb_true_iff in Hpre as [Hc Hpre].
  apply negb_true_iff in Hc.
  rewrite app_String. cbn [JSText.match_parens]. rewrite Hc. now apply IH.
Qed.

Lemma clean_after (pre rest : string) :
  JSText.forallb_string (fun c => negb (Ascii.eqb c "(") && negb (JS.is_space c))%bool pre
  = true ->
  StackNames.paren_suffix rest = true ->
  StackNames.clean (pre ++ rest) = pre.
Proof.
  intros Hpre Hrest. induction pre as [|c pre IH].
  - change ("" ++ rest)%string with rest. destruct rest as [|r rest]; [discriminate|].
    cbn [StackNames.clean]. now rewrite Hrest.
  - cbn [JSText.forallb_string] in Hpre. apply andb_true_iff in Hpre as [Hc Hpre].
    apply andb_true_iff in Hc as [Hc1 Hc2]. apply negb_true_iff in Hc1, Hc2.
    rewrite app_String. cbn [StackNames.clean StackNames.paren_suffix].
    rewrite Hc1, Hc2. now rewrite IH.
Qed.

Lemma split_no_separator (sep : ascii) (s : string) :
  JSText.forallb_string (fun c => negb (Ascii.eqb c sep)) s = true ->
  JSText.split_char sep s = [s].
Proof.
  induction s as [|c s IH]; [reflexivity|].
  cbn [JSText.forallb_string]. rewrite andb_true_iff, negb_true_iff. intros [Hc Hs].
  cbn [JSText.split_char]. now rewrite (IH Hs), Hc.
Qed.

Lemma forallb_string_impl (p q : ascii -> bool) (s : string) :
  (forall c, p c = true -> q c = true) ->
  JSText.forallb_string p s = true -> JSText.forallb_string q s = true.
Proof.
  intros Hpq. induction s as [|c s IH]; [reflexivity|].
  cbn [JSText.forallb_string]. rewrite !andb_true_iff. intros [Hc Hs]. auto.
Qed.

(** X20: a line of the shape [Name (Id)] that passes the filter comes back as
    one stack whose full name is the line, whose CloudFormation name is
    [Id], and whose full name cleaned for the CDK command line is [Name]
    again.  [Name] holds no white space and no opening parenthesis, [Id]
    no white space and no closing parenthesis. *)
Theorem listStacks_reads_name_and_id (Name Id : string) (err : option string) :
  Name <> "" -> Id <> "" ->
  JSText.forallb_string (fun c => negb (Ascii.eqb c "(") && negb (JS.is_space c))%bool Name
  = true ->
  JSText.forallb_string (fun c => negb (Ascii.eqb c ")") && negb (JS.is_space c))%bool Id
  = true ->
  let line := (Name ++ " (" ++ Id ++ ")")%string in
  keep_line line = true ->
  listStacks (mkCommandResult true (Some line) err) =
    Listed [mkStackInfo (JS.trim (last_segment Name)) line Id] /\
  StackNames.clean line = Name.
Proof.
  intros HN HI HNp HIp. cbv zeta. intros Hkeep.
  set (line := (Name ++ " (" ++ Id ++ ")")%string) in *.
  assert (HIc : JSText.forallb_string (fun c => negb (Ascii.eqb c ")")) Id = true).
  { revert HIp. apply forallb_string_impl. intros c H.
    now apply andb_true_iff in H as [H _]. }
  assert (HIs : JSText.forallb_string (fun c => negb (JS.is_space c)) Id = true).
  { revert HIp. apply forallb_string_impl. intros c H.
    now apply andb_true_iff in H as [_ H]. }
  assert (HNs : JSText.forallb_string (fun c => negb (JS.is_space c)) Name = true).
  { revert HNp. apply forallb_string_impl. intros c H.
    now apply andb_true_iff in H as [_ H]. }
  assert (HNo : JSText.forallb_string (fun c => negb (Ascii.eqb c "(")) Name = true).
  { revert HNp. apply forallb_string_impl. intros c H.
    now apply andb_true_iff in H as [H _]. }
  assert (Hclean : StackNames.clean line = Name).
  { apply clean_after; [exact HNp|].
    change (" (" ++ Id ++ ")")%string with (String " " (String "(" (Id ++ ")"))).
    cbn [StackNames.paren_suffix]. simpl Ascii.eqb. simpl JS.is_space. cbv iota.
    now apply group_then_end_plain. }
  assert (Hmatch : JSText.match_parens line = Some Id).
  { unfold line.
    change (Name ++ " (" ++ Id ++ ")")%string
      with (Name ++ String " " (String "(" (Id ++ ")")))%string.
    apply match_parens_after; [exact HNo|].
    cbn [JSText.match_parens]. simpl Ascii.eqb. cbv iota.
    rewrite (group_to_end_plain Id HIc). destruct Id; [congruence | reflexivity]. }
  assert (Htrim : JS.trim line = line).
  { unfold JS.trim.
    assert (Hs : JS.trimStart line = line).
    { unfold line. destruct Name as [|c N]; [congruence|].
      cbn [JSText.forallb_string] in HNs. apply andb_true_iff in HNs as [Hc _].
      apply negb_true_iff in Hc. rewrite app_String. cbn [JS.trimStart]. now rewrite Hc. }
    rewrite Hs. unfold line.
    replace (Name ++ " (" ++ Id ++ ")")%string
      with ((Name ++ " (" ++ Id) ++ String ")" "")%string
      by (now rewrite !string_app_assoc).
    now apply trimEnd_snoc. }
  assert (Hnl : JSText.split_char "010" line = [line]).
  { apply split_no_separator. unfold line.
    rewrite !forallb_string_app. rewrite !andb_true_iff. repeat split.
    - revert HNs. apply forallb_string_impl.
      intros c. destruct c as [[] [] [] [] [] [] [] []]; simpl; congruence.
    - revert HIs. apply forallb_string_impl.
      intros c. destruct c as [[] [] [] [] [] [] [] []]; simpl; congruence. }
  split; [|exact Hclean].
  unfold listStacks. cbn [success output negb].
  assert (Ht : JS.truthy line = true).
  { unfold line. destruct Name; [congruence | reflexivity]. }
  rewrite Ht. unfold parse_output. rewrite Hnl. cbn [List.filter]. rewrite Hkeep.
  cbn [omap list_omap]. unfold parse_line. cbv zeta. rewrite Htrim, Ht. cbn [negb].
  rewrite Hmatch, Hclean. unfold JSText.or_else.
  destruct Id; [congruence | reflexivity].
Qed.

Lemma listStacks_reads_name_and_id_witness :
  listStacks (mkCommandResult true (Some "Pipeline/ServiceA (cf-a)") None) =
    Listed [mkStackInfo "ServiceA" "Pipeline/ServiceA (cf-a)" "cf-a"] /\
  StackNames.clean "Pipeline/ServiceA (cf-a)" = "Pipeline/ServiceA".
Proof.
  exact (listStacks_reads_name_and_id "Pipeline/ServiceA" "cf-a" None
           ltac:(discriminate) ltac:(discriminate) eq_refl eq_refl eq_refl).
Defined.

Lemma clean_prefix (s : string) :
  exists rest, s = (StackNames.clean s ++ rest)%string /\
               (rest = "" \/ StackNames.paren_suffix rest = true).
Proof.
  induction s as [|c s IH].
  - exists "". split; [reflexivity | now left].
  - cbn [StackNames.clean].
    destruct (StackNames.paren_suffix (String c s)) eqn:E.
    + exists (String c s). split; [reflexivity | now right].
    + destruct IH as (rest & Hs & Hr). exists rest. split; [|exact Hr].
      rewrite app_String. now rewrite <- Hs.
Qed.

(** X21: cleaning a name for the CDK command line only cuts at its end: the
    cleaned name is a prefix of the name, and what is cut is one
    parenthesised group with the white space around it.  A name without
    an opening parenthesis is not changed. *)
Theorem clean_cuts_one_group_at_the_end (s : string) :
  (exists rest, s = (StackNames.clean s ++ rest)%string /\
                (rest = "" \/ StackNames.paren_suffix rest = true)) /\
  (JSText.forallb_string (fun c => negb (Ascii.eqb c "(")) s = true ->
   StackNames.clean s = s).
Proof.
  split; [apply clean_prefix|].
  induction s as [|c s IH]; [reflexivity|].
  cbn [JSText.forallb_string]. rewrite andb_true_iff, negb_true_iff. intros [Hc Hs].
  cbn [StackNames.clean].
  assert (Hp : forall t, JSText.forallb_string (fun c => negb (Ascii.eqb c "(")) t = true ->
                         StackNames.paren_suffix t = false).
  { induction t as [|d t IHt]; [reflexivity|].
    cbn [JSText.forallb_string]. rewrite andb_true_iff, negb_true_iff. intros [Hd Ht].
    cbn [StackNames.paren_suffix]. rewrite Hd. destruct (JS.is_space d); auto. }
  rewrite (Hp (String c s)).
  - now rewrite IH.
  - cbn [JSText.forallb_string]. now rewrite Hc, Hs.
Qed.

Lemma clean_cuts_one_group_at_the_end_witness :
  StackNames.clean "Plain-Stack" = "Plain-Stack".
Proof.
  exact (proj2 (clean_cuts_one_group_at_the_end "Plain-Stack") eq_refl).
Defined.

End ListingFacts.

(** ** The inventory: deployed entries and tags *)

Module InventoryFacts.
Import CDKStackService.

(** X22: an entry of the reconciled list has a stack id, and so counts as
    deployed, exactly when its lookup returned a stack that carries an
    id; an entry whose lookup threw or found nothing never counts as
    deployed.  The deployed count is at most the number of declared
    stacks. *)
Theorem entry_is_deployed_iff_found_with_id
        (send : nat -> string -> Result Error DescribeStacksOutput) (now : Z)
        (declared : list StackInfo) :
  (forall (i : nat) (d : CDKStack),
      listCDKStacks send now (Ok declared) !! i = Some d ->
      (stackId d <> None <->
       exists stack out found rest,
         declared !! i = Some stack /\ send i (cfStackName stack) = Ok out /\
         Stacks out = Some (found :: rest) /\ StackId found <> None)) /\
  0 <= deployedCount (listCDKStacks send now (Ok declared)) <= JS.alength declared.
Proof.
  rewrite ReconcilerFacts.listCDKStacks_imap. split.
  - intros i d. rewrite list_lookup_imap.
    destruct (declared !! i) as [stack|] eqn:E; [|discriminate].
    simpl. intros H. inversion H. clear H. subst d.
    unfold detail_of, getStackDetails.
    destruct (send i (cfStackName stack)) as [[[[|found rest]|]]|e] eqn:Es; simpl.
    + split; [congruence|]. intros (s & o & f & r & Hs & Ho & Hst & _).
      inversion Hs. subst s. rewrite Es in Ho. inversion Ho. subst o. discriminate.
    + split.
      * intros Hid. exists stack, (mkOutput (Some (found :: rest))), found, rest. auto.
      * intros (s & o & f & r & Hs & Ho & Hst & Hid).
        inversion Hs. subst s. rewrite Es in Ho. inversion Ho. subst o.
        simpl in Hst. inversion Hst. now subst f.
    + split; [congruence|]. intros (s & o & f & r & Hs & Ho & Hst & _).
      inversion Hs. subst s. rewrite Es in Ho. inversion Ho. subst o. discriminate.
    + split; [congruence|]. intros (s & o & f & r & Hs & Ho & _).
      inversion Hs. subst s. rewrite Es in Ho. discriminate.
  - unfold deployedCount, JS.alength.
    pose proof (List.filter_length_le
                  (fun stack => bool_decide (stackId stack ≠ None))
                  (imap (fun i stack => detail_of send now i stack) declared)) as H.
    rewrite length_imap in H. lia.
Qed.

Lemma entry_is_deployed_iff_found_with_id_witness :
  stackId <$> listCDKStacks Scenarios.send3 0 (Ok Scenarios.declared3) !! 1%nat = Some None /\
  ~ (exists stack out found rest,
        Scenarios.declared3 !! 1%nat = Some stack /\
        Scenarios.send3 1 (cfStackName stack) = Ok out /\
        Stacks out = Some (found :: rest) /\ StackId found <> None).
Proof.
  split; [reflexivity|].
  intros H.
  apply (proj1 (entry_is_deployed_iff_found_with_id Scenarios.send3 0 Scenarios.declared3)
           1%nat
           (mkCDKStack "B/Child (cf-B)" None "NOT_DEPLOYED" 0 (Some 0)
              (Some "CDK Stack (not deployed)") (Some ∅)) eq_refl) in H.
  now apply H.
Defined.

Lemma collect_tags_from (tags : list Tag) (acc : gmap string string) (k v : string) :
  fold_left collect_tag tags acc !! k = Some v ->
  acc !! k = Some v \/
  (k <> "" /\ v <> "" /\ exists tag, tag ∈ tags /\ Key tag = Some k /\ Value tag = Some v).
Proof.
  revert acc. induction tags as [|t tags IH]; intros acc; simpl; [now left|].
  intros H. apply IH in H as [H | (Hk & Hv & tag & Hin & Ht)].
  - unfold collect_tag in H.
    destruct (Key t) as [k0|] eqn:Ek; [|now left].
    destruct (Value t) as [v0|] eqn:Ev; [|now left].
    destruct (JS.truthy k0 && JS.truthy v0)%bool eqn:Et; [|now left].
    apply andb_true_iff in Et as [Tk Tv].
    destruct (decide (k0 = k)) as [->|Hne].
    + rewrite lookup_insert_eq in H. inversion H. subst v0. right.
      repeat split.
      * intros ->. discriminate.
      * intros ->. discriminate.
      * exists t. split; [left | split; [exact Ek | exact Ev]].
    + rewrite lookup_insert_ne in H by exact Hne. now left.
  - right. split; [exact Hk | split; [exact Hv|]].
    exists tag. split; [now right | exact Ht].
Qed.

(** X23: the tags kept for a stack that was found come from the tags of the
    response, and none of them has an empty key or an empty value. *)
Theorem kept_tags_are_nonempty
        (send : nat -> string -> Result Error DescribeStacksOutput)
        (n : nat) (stackName cfStackName : string) (d : CDKStack)
        (m : gmap string string) (k v : string) :
  getStackDetails send n stackName cfStackName = Ok (Some d) ->
  tags d = Some m -> m !! k = Some v ->
  k <> "" /\ v <> "" /\
  exists out found rest tl tag,
    send n cfStackName = Ok out /\ Stacks out = Some (found :: rest) /\
    Tags found = Some tl /\ tag ∈ tl /\ Key tag = Some k /\ Value tag = Some v.
Proof.
  unfold getStackDetails.
  destruct (send n cfStackName) as [[[[|found rest]|]]|e] eqn:Es; simpl; try discriminate.
  intros H. inversion H. clear H. subst d. simpl.
  destruct (Tags found) as [tl|] eqn:Et; simpl; [|discriminate].
  intros H. inversion H. clear H. subst m. intros H.
  apply collect_tags_from in H as [H | (Hk & Hv & tag & Hin & Hkey & Hval)].
  - rewrite lookup_empty in H. discriminate.
  - split; [exact Hk | split; [exact Hv|]].
    exists (mkOutput (Some (found :: rest))), found, rest, tl, tag.
    repeat split; auto.
Qed.

Lemma kept_tags_are_nonempty_witness :
  let found := mkStack (Some "arn") "CREATE_COMPLETE" 0 None None
                 (Some [mkTag (Some "env") (Some "prod"); mkTag (Some "") (Some "x");
                        mkTag (Some "team") None]) in
  let send := fun (_ : nat) (_ : string) => Ok (mkOutput (Some [found])) in
  (tags <$> (match getStackDetails send 0 "A" "cf-A" with
             | Ok r => r
             | Throw _ => None
             end)) = Some (Some {[ "env" := "prod" ]}) /\
  "env" <> "" /\ "prod" <> "".
Proof.
  cbv zeta. split; [reflexivity|].
  destruct (kept_tags_are_nonempty
              (fun (_ : nat) (_ : string) =>
                 Ok (mkOutput
                       (Some [mkStack (Some "arn") "CREATE_COMPLETE" 0 None None
                                (Some [mkTag (Some "env") (Some "prod");
                                       mkTag (Some "") (Some "x");
                                       mkTag (Some "team") None])])))
              0 "A" "cf-A" _ _ "env" "prod" eq_refl eq_refl eq_refl) as (Hk & Hv & _).
  split; assumption.
Defined.

End InventoryFacts.

(** ** The main menu *)

Lemma menu_value_is_known (c : Choice) :
  c ∈ MainMenu.menuChoices -> MainMenu.handleMainMenuAction (value c) <> MainMenu.UnknownAction.
Proof.
  unfold MainMenu.menuChoices. intros H.
  repeat (apply elem_of_cons in H as [-> | H]; [discriminate|]).
  inversion H.
Qed.

(** X25: the main menu reports an unknown action only when Enter was pressed
    with no choice visible (the search matched nothing); otherwise the
    action is the one of the choice under the cursor, one of deploy,
    destroy, refresh and exit. *)
Theorem main_menu_unknown_only_on_empty_view (keys : list string) (a : MainMenu.Action) :
  MainMenu.showMainMenu keys = Some a ->
  let s := SearchableSelect.run MainMenu.menuChoices false keys in
  (a = MainMenu.UnknownAction /\ SearchableSelect.filteredChoices s = []) \/
  (a <> MainMenu.UnknownAction /\
   exists c, c ∈ MainMenu.menuChoices /\
             JS.array_get (SearchableSelect.filteredChoices s)
               (SearchableSelect.currentIndex s) = Some c /\
             a = MainMenu.handleMainMenuAction (value c)).
Proof.
  unfold MainMenu.showMainMenu. cbv zeta.
  destruct (SearchableSelect.outcome _) as [|r| |] eqn:E; try discriminate.
  destruct (proj2 (proj2 (single_inv_run MainMenu.menuChoices keys)) _ E)
    as (v & -> & [[Hempty ->] | (c & Hc & -> & Hin)]).
  - intros H. inversion H. left. split; [reflexivity | exact Hempty].
  - intros H. inversion H. right. split; [now apply menu_value_is_known|].
    exists c. auto.
Qed.

Lemma main_menu_unknown_only_on_empty_view_witness :
  MainMenu.showMainMenu ["d"; "e"; "s"; ENTER] = Some MainMenu.ShowDestroyMenu /\
  MainMenu.showMainMenu ["q"; ENTER] = Some MainMenu.UnknownAction /\
  SearchableSelect.filteredChoices
    (SearchableSelect.run MainMenu.menuChoices false ["q"; ENTER]) = [].
Proof.
  split; [reflexivity|]. split; [reflexivity|].
  destruct (main_menu_unknown_only_on_empty_view ["q"; ENTER] MainMenu.UnknownAction eq_refl)
    as [[_ H] | [H _]]; [exact H | congruence].
Defined.

(** ** Status colours *)

(** X26: wherever [getStackStatusColor] gives a colour other than gray,
    [getStackStatusWithEmoji] gives the same colour: a status is never
    shown in two different colours, one table only being more detailed. *)
Theorem status_colours_agree (status : string) :
  StatusDisplay.getStackStatusColor status <> "gray" ->
  StatusDisplay.color (StatusDisplay.getStackStatusWithEmoji status) =
  StatusDisplay.getStackStatusColor status.
Proof.
  unfold StatusDisplay.getStackStatusWithEmoji.
  repeat match goal with
         | |- context [String.eqb status ?x] =>
             destruct (String.eqb_spec status x) as [-> | ?];
             [intros _; reflexivity|]
         end.
  intros H. exfalso. apply H.
  unfold StatusDisplay.getStackStatusColor, StatusDisplay.one_of. simpl.
  repeat match goal with
         | |- context [String.eqb status ?x] =>
             rewrite (eqb_false_of_neq status x) by assumption
         end.
  reflexivity.
Qed.

Lemma status_colours_agree_witness :
  StatusDisplay.color (StatusDisplay.getStackStatusWithEmoji "UPDATE_ROLLBACK_COMPLETE")
  = "orange".
Proof.
  exact (status_colours_agree "UPDATE_ROLLBACK_COMPLETE" ltac:(discriminate)).
Defined.

(** ** The search for the CDK project *)

Module ProjectSearchFacts.
Import ProjectSearch.

Section Facts.
Variable dirname : string -> string.
Variable has_cdk_json : string -> bool.
Variable cdk_json_app : string -> option string.



End Facts.



End ProjectSearchFacts.

(** ** Witnesses for the range and clamp lemmas *)

Lemma selected_in_range_unless_thrown_witness :
  let choices := [mkChoice 0 "Alpha" "a"; mkChoice 1 "Child" "b"] in
  MultiSelect.selectedIndices (MultiSelect.run choices [ESC ++ "[B"; SPACE]) = {[ 1 ]} /\
  0 <= 1 < JS.alength choices.
Proof.
  cbv zeta. split; [reflexivity|].
  apply (selected_in_range_unless_thrown
           [mkChoice 0 "Alpha" "a"; mkChoice 1 "Child" "b"] [ESC ++ "[B"; SPACE]
           ltac:(discriminate) 1).
  apply (bool_decide_unpack _). vm_compute. exact I.
Defined.

Lemma searchable_filter_change_clamps_witness :
  let choices := [mkChoice 0 "Alpha" "a"; mkChoice 1 "Child" "b"; mkChoice 2 "Other" "c"] in
  let s := SearchableSelect.run choices false [ESC ++ "[B"; ESC ++ "[B"] in
  SearchableSelect.currentIndex s = 2 /\
  0 <= SearchableSelect.currentIndex (SearchableSelect.handleKey choices false s "h") <=
    Z.max 0 (JS.alength
               (SearchableSelect.filteredChoices
                  (SearchableSelect.handleKey choices false s "h")) - 1).
Proof.
  cbv zeta. split; [reflexivity|].
  apply (searchable_filter_change_clamps
           [mkChoice 0 "Alpha" "a"; mkChoice 1 "Child" "b"; mkChoice 2 "Other" "c"] false
           (SearchableSelect.run
              [mkChoice 0 "Alpha" "a"; mkChoice 1 "Child" "b"; mkChoice 2 "Other" "c"]
              false [ESC ++ "[B"; ESC ++ "[B"]) "h").
  - right. split; [reflexivity | now left].
  - discriminate.
Defined.

Lemma multi_display_rows_witness :
  let choices := [mkChoice 0 "Alpha" "a"; mkChoice 1 "Child" "b"] in
  let s := MultiSelect.run choices [ESC ++ "[B"; SPACE] in
  MultiSelect.displayChoices choices s =
    [mkRow false (Some false) "Alpha"; mkRow true (Some true) "Child"] /\
  (isCurrent (mkRow true (Some true) "Child") = true <->
   Z.of_nat 1 = MultiSelect.currentIndex s).
Proof.
  cbv zeta. split; [reflexivity|].
  exact (proj1 (proj2 (multi_display_rows
                         [mkChoice 0 "Alpha" "a"; mkChoice 1 "Child" "b"]
                         (MultiSelect.run [mkChoice 0 "Alpha" "a"; mkChoice 1 "Child" "b"]
                            [ESC ++ "[B"; SPACE]))
                  1%nat (mkRow true (Some true) "Child") eq_refl)).
Defined.
